(** * Garagem: the vehicle model of [jss/carro.js] and the persistence layer of
    [jss/garagem.js]

    The development embeds the vehicle class [CarroBase] (state machine over
    [ligado]/[velocidade], maintenance history, [toJSON]) and the garage
    functions that save, load and edit the fleet held in [localStorage].

    Conventions of the embedding.
    - A JavaScript number is an integer of [Z] or a decimal fraction
      ([Numero]).  The numbers the program computes with (speeds, years,
      time values in milliseconds, cargo) are integers; an integer stands
      for the double nearest to it, which is the integer itself below
      [2^53], and [String] and [parseInt] print and read it as they do a
      double.  Integers beyond the largest double are outside the model.
    - A JavaScript string is the [string] of its UTF-8 bytes.  [trim] and
      [parseInt] skip the white space of ECMAScript, in and beyond ASCII;
      [toUpperCase] is the one of texts in ASCII, and a statement that
      depends on the case of a text takes that text in ASCII
      ([texto_ascii]).
    - A [Date] is its time value (milliseconds since the epoch), [None]
      being the Invalid Date.  The text [toISOString] returns for the time
      value [t] is kept as the token [DIso t]: ECMAScript fixes
      [Date.parse(d.toISOString()) = d.getTime()] for every valid date.
    - DOM updates and sounds do not touch the modelled state and are left
      out; [alert] calls are recorded in a log. *)

From Stdlib Require Import ZArith List Bool Ascii String Sorted Permutation Lia.
From Stdlib Require Import DecimalString DecimalZ DecimalFacts DecimalPos.
From stdpp Require Import base gmap strings list.

Open Scope Z_scope.

(** ** JavaScript scalars and coercions *)

(** A JavaScript number: an integer, or the decimal fraction [m / 10^e]
    (written with [m] no multiple of 10). *)
Inductive Numero : Type :=
| Inteiro (n : Z)
| Fracao (m : Z) (e : positive).

Coercion Inteiro : Z >-> Numero.

#[global] Instance Numero_eq_dec : EqDecision Numero.
Proof. solve_decision. Defined.

Inductive JsVal : Type :=
| JUndefined
| JNull
| JBool (b : bool)
| JNum (n : Numero)
| JStr (s : string).

#[global] Instance JsVal_eq_dec : EqDecision JsVal.
Proof. solve_decision. Defined.

Definition nao_negativo (x : Numero) : bool :=
  match x with
  | Inteiro n => 0 <=? n
  | Fracao m _ => 0 <=? m
  end.

(** [ToBoolean]: what [!x], [x || y] and [if (x)] test. *)
Definition truthy (x : JsVal) : bool :=
  match x with
  | JUndefined | JNull => false
  | JBool b => b
  | JNum (Inteiro n) => negb (n =? 0)
  | JNum (Fracao m _) => negb (m =? 0)
  | JStr s => negb (String.eqb s "")
  end.

(** [x || y] *)
Definition js_or (x y : JsVal) : JsVal := if truthy x then x else y.

(** The double nearest to the integer [z], ties to the even mantissa. *)
Definition to_double (z : Z) : Z :=
  let a := Z.abs z in
  if a <? 2 ^ 53 then z else
  let e := Z.log2 a - 52 in
  let q := Z.shiftr a e in
  let r := a - Z.shiftl q e in
  let meio := Z.shiftl 1 (e - 1) in
  let q' := if (meio <? r) || ((r =? meio) && Z.odd q) then q + 1 else q in
  Z.sgn z * Z.shiftl q' e.

(** The decimal text of an integer, with [-] in front of a negative one. *)
Definition decimal (z : Z) : string := NilZero.string_of_int (Z.to_int z).

(** The number of decimal digits of [a ≥ 0]. *)
Definition casas (a : Z) : Z := Z.of_nat (String.length (decimal a)).

(** The multiple of [10^(casas v - k)] that reads back as the double
    [v > 0], if there is one: the nearer of the two around [v], the even
    one in a tie. *)
Definition candidato (v k : Z) : option Z :=
  let p := 10 ^ (casas v - k) in
  let lo := v / p * p in
  let hi := lo + p in
  match to_double lo =? v, to_double hi =? v with
  | true, true =>
      Some (if v - lo <? hi - v then lo
            else if hi - v <? v - lo then hi
            else if Z.even (v / p) then lo else hi)
  | true, false => Some lo
  | false, true => Some hi
  | false, false => None
  end.

(** The integer with the fewest significant digits, from [k] on, that reads
    back as the double [v]: the digits [Number::toString] prints. *)
Fixpoint mais_curto (n : nat) (k v : Z) : Z :=
  match n with
  | O => v
  | S n' =>
      match candidato v k with
      | Some c => c
      | None => mais_curto n' (k + 1) v
      end
  end.

Fixpoint zeros (n : nat) : string :=
  match n with
  | O => EmptyString
  | S n' => String "0" (zeros n')
  end.

Fixpoint sem_zeros_finais (s : string) : string :=
  match s with
  | EmptyString => EmptyString
  | String c r =>
      match sem_zeros_finais r with
      | EmptyString => if Ascii.eqb c "0" then EmptyString else String c EmptyString
      | r' => String c r'
      end
  end.

(** [Number::toString] of the positive number [0.ds × 10^n], [ds] being its
    significant digits: plain digits up to 21 of them in front of the
    point, a leading [0.] down to [10^-7], the exponent form elsewhere. *)
Definition formatar_numero (ds : string) (n : Z) : string :=
  let k := Z.of_nat (String.length ds) in
  if (k <=? n) && (n <=? 21) then ds +:+ zeros (Z.to_nat (n - k))
  else if (0 <? n) && (n <=? 21)
  then substring 0 (Z.to_nat n) ds +:+ "." +:+ substring (Z.to_nat n) (Z.to_nat (k - n)) ds
  else if (-6 <? n) && (n <=? 0) then "0." +:+ zeros (Z.to_nat (- n)) +:+ ds
  else
    let expoente := (if 0 <=? n - 1 then "e+" else "e-") +:+ decimal (Z.abs (n - 1)) in
    match ds with
    | EmptyString => EmptyString
    | String d EmptyString => String d expoente
    | String d r => String d ("." +:+ r +:+ expoente)
    end.

(** [String(x)] for a number: an integer stands for the double nearest to
    it, and is printed in full below [2^53]. *)
Definition Number_toString (x : Numero) : string :=
  match x with
  | Inteiro z =>
      let v := to_double z in
      if Z.abs v <? 2 ^ 53 then decimal v
      else
        let c := mais_curto 17 1 (Z.abs v) in
        (if v <? 0 then "-" else "")
          +:+ formatar_numero (sem_zeros_finais (decimal c)) (casas c)
  | Fracao m e =>
      if m =? 0 then "0"
      else (if m <? 0 then "-" else "")
             +:+ formatar_numero (sem_zeros_finais (decimal (Z.abs m)))
                                 (casas (Z.abs m) - Z.pos e)
  end.

(** [String(x)] *)
Definition js_String (x : JsVal) : string :=
  match x with
  | JUndefined => "undefined"
  | JNull => "null"
  | JBool true => "true"
  | JBool false => "false"
  | JNum n => Number_toString n
  | JStr s => s
  end.

(** White space and line terminators of ECMAScript, which
    [String.prototype.trim] and [parseInt] skip.  In the ASCII range: space,
    tab, line feed, vertical tab, form feed, carriage return. *)
Definition is_space (c : ascii) : bool :=
  let n := nat_of_ascii c in
  (n =? 32)%nat || ((9 <=? n)%nat && (n <=? 13)%nat).

(** U+00A0, in the two bytes of UTF-8. *)
Definition is_space2 (c1 c2 : ascii) : bool :=
  (nat_of_ascii c1 =? 194)%nat && (nat_of_ascii c2 =? 160)%nat.

(** U+1680, U+2000 to U+200A, U+2028, U+2029, U+202F, U+205F, U+3000 and
    U+FEFF, in the three bytes of UTF-8. *)
Definition is_space3 (c1 c2 c3 : ascii) : bool :=
  let a := nat_of_ascii c1 in
  let b := nat_of_ascii c2 in
  let c := nat_of_ascii c3 in
  ((a =? 225) && (b =? 154) && (c =? 128)
   || (a =? 226) && (b =? 128)
      && ((128 <=? c) && (c <=? 138) || (c =? 168) || (c =? 169) || (c =? 175))
   || (a =? 226) && (b =? 129) && (c =? 159)
   || (a =? 227) && (b =? 128) && (c =? 128)
   || (a =? 239) && (b =? 187) && (c =? 191))%nat.

(** The text after the white space character at its head, when it starts
    with one. *)
Definition pular_espaco (s : string) : option string :=
  match s with
  | String c1 r1 =>
      if is_space c1 then Some r1 else
      match r1 with
      | String c2 r2 =>
          if is_space2 c1 c2 then Some r2 else
          match r2 with
          | String c3 r3 => if is_space3 c1 c2 c3 then Some r3 else None
          | EmptyString => None
          end
      | EmptyString => None
      end
  | EmptyString => None
  end.

Fixpoint trimStart (s : string) : string :=
  match s with
  | String c1 r1 =>
      if is_space c1 then trimStart r1 else
      match r1 with
      | String c2 r2 =>
          if is_space2 c1 c2 then trimStart r2 else
          match r2 with
          | String c3 r3 => if is_space3 c1 c2 c3 then trimStart r3 else s
          | EmptyString => s
          end
      | EmptyString => s
      end
  | EmptyString => EmptyString
  end.

(** The text is cut where only white space is left. *)
Fixpoint trimEnd (s : string) : string :=
  match s with
  | EmptyString => EmptyString
  | String c r => if String.eqb (trimStart s) "" then EmptyString else String c (trimEnd r)
  end.

Definition trim (s : string) : string := trimEnd (trimStart s).

Definition upper_ascii (c : ascii) : ascii :=
  let n := nat_of_ascii c in
  if ((97 <=? n)%nat && (n <=? 122)%nat)%bool then ascii_of_nat (n - 32) else c.

(** [String.prototype.toUpperCase] on a text in ASCII, where the letters
    [a] to [z] are the ones it changes. *)
Fixpoint toUpperCase (s : string) : string :=
  match s with
  | EmptyString => EmptyString
  | String c r => String (upper_ascii c) (toUpperCase r)
  end.

(** Every byte of the text is an ASCII character. *)
Fixpoint texto_ascii (s : string) : bool :=
  match s with
  | EmptyString => true
  | String c r => (nat_of_ascii c <? 128)%nat && texto_ascii r
  end.

(** Value of a digit in [parseInt]: [0-9], then [a-z]/[A-Z] as 10..35. *)
Definition digit_val (c : ascii) : option Z :=
  let n := Z.of_nat (nat_of_ascii c) in
  if (48 <=? n) && (n <=? 57) then Some (n - 48)
  else if (97 <=? n) && (n <=? 122) then Some (n - 87)
  else if (65 <=? n) && (n <=? 90) then Some (n - 55)
  else None.

(** Longest prefix of digits below [radix]; [None] when it is empty. *)
Fixpoint parse_digits (radix : Z) (acc : option Z) (s : string) : option Z :=
  match s with
  | EmptyString => acc
  | String c r =>
      match digit_val c with
      | Some d =>
          if d <? radix
          then parse_digits radix (Some (radix * default 0 acc + d)) r
          else acc
      | None => acc
      end
  end.

(** [parseInt(s)] on a string, no radix given: leading white space, an
    optional sign, an optional [0x] prefix; the result is the double
    nearest to the integer read, [None] is [NaN]. *)
Definition parseInt_string (s : string) : option Z :=
  let s1 := trimStart s in
  let '(sign, s2) :=
    match s1 with
    | String "-" r => (-1, r)
    | String "+" r => (1, r)
    | _ => (1, s1)
    end in
  let mag :=
    match s2 with
    | String "0" (String "x" r) | String "0" (String "X" r) => parse_digits 16 None r
    | _ => parse_digits 10 None s2
    end in
  (λ n, to_double (sign * n)) <$> mag.

(** The value of a numeral, digit by digit on top of [a]. *)
Fixpoint valor_uint (d : Decimal.uint) (a : Z) : Z :=
  match d with
  | Decimal.Nil => a
  | Decimal.D0 l => valor_uint l (10 * a)
  | Decimal.D1 l => valor_uint l (10 * a + 1)
  | Decimal.D2 l => valor_uint l (10 * a + 2)
  | Decimal.D3 l => valor_uint l (10 * a + 3)
  | Decimal.D4 l => valor_uint l (10 * a + 4)
  | Decimal.D5 l => valor_uint l (10 * a + 5)
  | Decimal.D6 l => valor_uint l (10 * a + 6)
  | Decimal.D7 l => valor_uint l (10 * a + 7)
  | Decimal.D8 l => valor_uint l (10 * a + 8)
  | Decimal.D9 l => valor_uint l (10 * a + 9)
  end.

(** The text holds decimal digits only. *)
Fixpoint so_digitos (s : string) : bool :=
  match s with
  | EmptyString => true
  | String c r => (48 <=? nat_of_ascii c)%nat && (nat_of_ascii c <=? 57)%nat && so_digitos r
  end.

(** [parseInt(x)]: the argument goes through [String(x)]. *)
Definition parseInt (x : JsVal) : option Z := parseInt_string (js_String x).

(** [parseInt(x) || null] : [NaN] and [0] both give [null]. *)
Definition parseInt_or_null (x : JsVal) : option Z :=
  match parseInt x with
  | Some n => if n =? 0 then None else Some n
  | None => None
  end.

(** ** Dates *)

Definition MS_POR_DIA : Z := 1000 * 60 * 60 * 24.

(** Days from 1970-01-01 to the civil date [y]-[m]-[d] (proleptic Gregorian). *)
Definition days_from_civil (y m d : Z) : Z :=
  let y' := if m <=? 2 then y - 1 else y in
  let era := y' / 400 in
  let yoe := y' - era * 400 in
  let mp := if 2 <? m then m - 3 else m + 9 in
  let doy := (153 * mp + 2) / 5 + d - 1 in
  let doe := yoe * 365 + yoe / 4 - yoe / 100 + doy in
  era * 146097 + doe - 719468.

(** Reads exactly [n] decimal digits. *)
Fixpoint read_digits (n : nat) (acc : Z) (s : string) : option (Z * string) :=
  match n with
  | O => Some (acc, s)
  | S n' =>
      match s with
      | String c r =>
          let k := Z.of_nat (nat_of_ascii c) in
          if (48 <=? k) && (k <=? 57) then read_digits n' (10 * acc + (k - 48)) r else None
      | EmptyString => None
      end
  end.

Definition expect (c : ascii) (s : string) : option string :=
  match s with
  | String c' r => if Ascii.eqb c c' then Some r else None
  | EmptyString => None
  end.

(** [Date.parse] on the two ISO forms the program produces itself: the
    date-only form [YYYY-MM-DD] (read as UTC, as ECMAScript prescribes) and
    [YYYY-MM-DDTHH:mm:ssZ].  Any other text reads as Invalid Date here, and
    a day past the end of its month is counted on into the next month. *)
Definition Date_parse (s : string) : option Z :=
  '(y, s) ← read_digits 4 0 s;
  s ← expect "-" s;
  '(m, s) ← read_digits 2 0 s;
  s ← expect "-" s;
  '(d, s) ← read_digits 2 0 s;
  if negb ((1 <=? m) && (m <=? 12) && (1 <=? d) && (d <=? 31)) then None else
  let dia := days_from_civil y m d * MS_POR_DIA in
  match s with
  | EmptyString => Some dia
  | _ =>
      s ← expect "T" s;
      '(hh, s) ← read_digits 2 0 s;
      s ← expect ":" s;
      '(mm, s) ← read_digits 2 0 s;
      s ← expect ":" s;
      '(ss, s) ← read_digits 2 0 s;
      s ← expect "Z" s;
      if negb (String.eqb s "" && (hh <=? 23) && (mm <=? 59) && (ss <=? 59)) then None
      else Some (dia + ((hh * 60 + mm) * 60 + ss) * 1000)
  end.

(** A value handed to [new Date(..)] or tested with [instanceof Date]. *)
Inductive JsData : Type :=
| DUndefined
| DNull
| DTexto (s : string)        (* any string *)
| DIso (t : Z)               (* the string [toISOString()] gives for time value [t] *)
| DDate (t : option Z).      (* a [Date] object *)

Definition truthy_data (x : JsData) : bool :=
  match x with
  | DUndefined | DNull => false
  | DTexto s => negb (String.eqb s "")
  | DIso _ | DDate _ => true
  end.

(** [new Date(x).getTime()], [None] for [NaN]. *)
Definition new_Date (x : JsData) : option Z :=
  match x with
  | DDate t => t
  | DIso t => Some t
  | DTexto s => Date_parse s
  | DNull => Some 0
  | DUndefined => None
  end.

(** [d?.toISOString() || null] for a date that is valid or [null]. *)
Definition iso_or_null (d : option Z) : JsData :=
  match d with
  | Some t => DIso t
  | None => DNull
  end.

(** ** Maintenance records *)

Record Manutencao : Type := mkManutencao {
  data : option Z;          (* the [Date]; [None] is the Invalid Date *)
  tipo : string;
  custo : Numero;
  descricao : string
}.

(** The plain object a record is saved as. *)
Record ManutencaoJSON : Type := mkManutencaoJSON {
  m_data : JsData;
  m_tipo : JsVal;
  m_custo : JsVal;
  m_descricao : JsVal
}.

(** The integer [m / 10^e] or the fraction in lowest decimal terms. *)
Fixpoint fracao_decimal (m : Z) (e : nat) : Numero :=
  match e with
  | O => Inteiro m
  | S e' => if m mod 10 =? 0 then fracao_decimal (m / 10) e' else Fracao m (Pos.of_nat e)
  end.

(** The longest prefix of decimal digits: its value on top of [acc], the
    number of digits read and the rest of the text. *)
Fixpoint ler_digitos (acc : Z) (n : nat) (s : string) : Z * nat * string :=
  match s with
  | EmptyString => (acc, n, s)
  | String c r =>
      let k := Z.of_nat (nat_of_ascii c) in
      if (48 <=? k) && (k <=? 57) then ler_digitos (10 * acc + (k - 48)) (S n) r
      else (acc, n, s)
  end.

(** Modelled from the spec: the number a text gives as a cost, for a plain
    decimal numeral (white space, a sign, digits, a point and digits);
    [None] when the text does not start with one. *)
Definition numero_do_texto (s : string) : option Numero :=
  let s1 := trimStart s in
  let '(sinal, s2) :=
    match s1 with
    | String "-" r => (-1, r)
    | String "+" r => (1, r)
    | _ => (1, s1)
    end in
  let '(inteira, n1, s3) := ler_digitos 0 0 s2 in
  let '(m, n2) :=
    match s3 with
    | String "." r => let '(m, n2, _) := ler_digitos inteira 0 r in (m, n2)
    | _ => (inteira, O)
    end in
  if (n1 + n2 =? 0)%nat then None else Some (fracao_decimal (sinal * m) n2).

(** Modelled from the spec: the class [Manutencao] is not among the sources.
    Its constructor stores the four fields and never throws; the date must
    parse to an instant, the cost is a non-negative number, whole or not,
    that defaults to [0] when absent or invalid, the texts default to the
    empty text. *)
Definition Manutencao_new (d : JsData) (t c o : JsVal) : Manutencao :=
  {| data := match d with
             | DDate x => x
             | _ => if truthy_data d then new_Date d else None
             end;
     tipo := js_String (js_or t (JStr ""));
     custo := match match c with
                    | JNum x => Some x
                    | JStr s => numero_do_texto s
                    | _ => None
                    end with
              | Some x => if nao_negativo x then x else 0
              | None => 0
              end;
     descricao := js_String (js_or o (JStr "")) |}.

(** Modelled from the spec: [validar()] of the absent class [Manutencao]; a
    record is valid iff its date is a real instant and its type is not empty
    after trimming. *)
Definition validar (m : Manutencao) : bool :=
  match data m with
  | Some _ => negb (String.eqb (trim (tipo m)) "")
  | None => false
  end.

(** Modelled from the spec: [toJSON()] of the absent class [Manutencao]; the
    ISO date, type, cost and description of a valid record, [null] ([None])
    for an invalid one. *)
Definition Manutencao_toJSON (m : Manutencao) : option ManutencaoJSON :=
  match data m with
  | Some t =>
      if validar m
      then Some {| m_data := DIso t; m_tipo := JStr (tipo m);
                   m_custo := JNum (custo m); m_descricao := JStr (descricao m) |}
      else None
  | None => None
  end.

(** What [adicionarManutencao] may be handed: an instance of [Manutencao] or
    any other value. *)
Inductive ArgManutencao : Type :=
| Instancia (m : Manutencao)
| Outro (x : JsVal).

(** [m instanceof Manutencao && m.validar()] *)
Definition manutencao_valida (a : ArgManutencao) : option Manutencao :=
  match a with
  | Instancia m => if validar m then Some m else None
  | Outro _ => None
  end.

(** [b.data?.getTime() || 0]: the sort key; an invalid date counts as the
    epoch. *)
Definition tempo_ou_zero (m : Manutencao) : Z := default 0 (data m).

(** The comparator of [adicionarManutencao]:
    [(a, b) => (b.data?.getTime() || 0) - (a.data?.getTime() || 0)]. *)
Definition comparar (a b : Manutencao) : Z := tempo_ou_zero b - tempo_ou_zero a.

(** [Array.prototype.sort(cmp)] is a stable sort; with a consistent
    comparator its result is the one of a stable insertion sort: an element
    stays in front of the later elements it compares equal to. *)
Fixpoint inserir {A : Type} (cmp : A → A → Z) (x : A) (l : list A) : list A :=
  match l with
  | [] => [x]
  | y :: r => if cmp x y <=? 0 then x :: y :: r else y :: inserir cmp x r
  end.

Fixpoint sort {A : Type} (cmp : A → A → Z) (l : list A) : list A :=
  match l with
  | [] => []
  | x :: r => inserir cmp x (sort cmp r)
  end.

(** ** Vehicles *)

(** The class of an instance together with the fields the subclass adds. *)
Inductive Classe : Type :=
| CarroBase
| CarroEsportivo (turboAtivado : bool)
| Caminhao (capacidadeCarga cargaAtual : Z).

Record Veiculo : Type := mkVeiculo {
  id : JsVal;
  modelo : string;
  cor : string;
  imagemSrc : JsVal;
  placa : string;
  ano : option Z;
  dataVencimentoCNH : option Z;
  velocidade : Z;
  ligado : bool;
  historicoManutencao : list Manutencao;
  classe : Classe
}.

Definition set_modelo (x : string) (v : Veiculo) : Veiculo :=
  mkVeiculo (id v) x (cor v) (imagemSrc v) (placa v) (ano v) (dataVencimentoCNH v)
            (velocidade v) (ligado v) (historicoManutencao v) (classe v).
Definition set_cor (x : string) (v : Veiculo) : Veiculo :=
  mkVeiculo (id v) (modelo v) x (imagemSrc v) (placa v) (ano v) (dataVencimentoCNH v)
            (velocidade v) (ligado v) (historicoManutencao v) (classe v).
Definition set_imagemSrc (x : JsVal) (v : Veiculo) : Veiculo :=
  mkVeiculo (id v) (modelo v) (cor v) x (placa v) (ano v) (dataVencimentoCNH v)
            (velocidade v) (ligado v) (historicoManutencao v) (classe v).
Definition set_placa (x : string) (v : Veiculo) : Veiculo :=
  mkVeiculo (id v) (modelo v) (cor v) (imagemSrc v) x (ano v) (dataVencimentoCNH v)
            (velocidade v) (ligado v) (historicoManutencao v) (classe v).
Definition set_ano (x : option Z) (v : Veiculo) : Veiculo :=
  mkVeiculo (id v) (modelo v) (cor v) (imagemSrc v) (placa v) x (dataVencimentoCNH v)
            (velocidade v) (ligado v) (historicoManutencao v) (classe v).
Definition set_dataVencimentoCNH (x : option Z) (v : Veiculo) : Veiculo :=
  mkVeiculo (id v) (modelo v) (cor v) (imagemSrc v) (placa v) (ano v) x
            (velocidade v) (ligado v) (historicoManutencao v) (classe v).
Definition set_velocidade (x : Z) (v : Veiculo) : Veiculo :=
  mkVeiculo (id v) (modelo v) (cor v) (imagemSrc v) (placa v) (ano v) (dataVencimentoCNH v)
            x (ligado v) (historicoManutencao v) (classe v).
Definition set_ligado (x : bool) (v : Veiculo) : Veiculo :=
  mkVeiculo (id v) (modelo v) (cor v) (imagemSrc v) (placa v) (ano v) (dataVencimentoCNH v)
            (velocidade v) x (historicoManutencao v) (classe v).
Definition set_historicoManutencao (x : list Manutencao) (v : Veiculo) : Veiculo :=
  mkVeiculo (id v) (modelo v) (cor v) (imagemSrc v) (placa v) (ano v) (dataVencimentoCNH v)
            (velocidade v) (ligado v) x (classe v).
Definition set_classe (x : Classe) (v : Veiculo) : Veiculo :=
  mkVeiculo (id v) (modelo v) (cor v) (imagemSrc v) (placa v) (ano v) (dataVencimentoCNH v)
            (velocidade v) (ligado v) (historicoManutencao v) x.

(** Messages shown with [alert]. *)
Inductive Aviso : Type :=
| LigueParaAcelerar (modelo : string)
| ManutencaoInvalida (modelo : string)
| ArmazenamentoCheio
| ErroAoSalvar
| ErroAoCarregar
| ErroVeiculosPadrao
| ModeloTipoObrigatorios
| VeiculoAdicionado (modelo : string)
| ErroAoAdicionar
| ErroInternoEdicao
| AlteracoesSalvasComImagem
| AlteracoesSalvas
| NenhumaAlteracao
| ErroLeituraImagem
| VeiculoNaoEncontrado (veiculoId : string).

(** The constructor of [CarroBase]; [None] when it throws.  The parameter
    default of [imagemSrc] and the [||] after it give the same value for
    [undefined]. *)
Definition CarroBase_new (id modelo cor imagemSrc placa ano : JsVal)
    (dataVencimentoCNH : JsData) : option Veiculo :=
  if negb (truthy id) || negb (truthy modelo) then None else
  Some {| id := id;
          modelo := trim (js_String (js_or modelo (JStr "Modelo Padrão")));
          cor := trim (js_String (js_or cor (JStr "Cor Padrão")));
          imagemSrc := js_or imagemSrc (JStr "default_car.png");
          placa := toUpperCase (trim (js_String (js_or placa (JStr ""))));
          ano := parseInt_or_null ano;
          dataVencimentoCNH :=
            match dataVencimentoCNH with
            | DDate t => t
            | d => if truthy_data d then new_Date d else None
            end;
          velocidade := 0;
          ligado := false;
          historicoManutencao := [];
          classe := CarroBase |}.

(** Modelled from the spec: the constructor of the subclass [CarroEsportivo]
    is not among the sources; it builds the common part as [CarroBase] does
    and starts with the turbo off. *)
Definition CarroEsportivo_new (id modelo cor imagemSrc placa ano : JsVal)
    (dataVencimentoCNH : JsData) : option Veiculo :=
  set_classe (CarroEsportivo false)
    <$> CarroBase_new id modelo cor imagemSrc placa ano dataVencimentoCNH.

(** Modelled from the spec: the constructor of the subclass [Caminhao] is not
    among the sources; it builds the common part as [CarroBase] does, takes
    the cargo capacity as a number that defaults to [0], and starts empty. *)
Definition Caminhao_new (id modelo cor imagemSrc placa ano : JsVal)
    (dataVencimentoCNH : JsData) (capacidadeCarga : JsVal) : option Veiculo :=
  set_classe (Caminhao (default 0 (parseInt capacidadeCarga)) 0)
    <$> CarroBase_new id modelo cor imagemSrc placa ano dataVencimentoCNH.

(** *** The actions on [ligado] and [velocidade]

    Every action returns the vehicle after the call and the alerts shown. *)

Definition ligar (v : Veiculo) : Veiculo * list Aviso :=
  if negb (ligado v) then (set_ligado true v, []) else (v, []).

Definition desligar (v : Veiculo) : Veiculo * list Aviso :=
  if ligado v then (set_velocidade 0 (set_ligado false v), []) else (v, []).

Definition VELOCIDADE_MAXIMA_BASE : Z := 200.

(** [CarroBase.prototype.acelerar], with the limit as a parameter. *)
Definition acelerar_ate (limite : Z) (v : Veiculo) : Veiculo * list Aviso :=
  if ligado v
  then (set_velocidade (Z.min (velocidade v + 10) limite) v, [])
  else (v, [LigueParaAcelerar (modelo v)]).

Definition CarroBase_acelerar : Veiculo → Veiculo * list Aviso :=
  acelerar_ate VELOCIDADE_MAXIMA_BASE.

(** The limit per class, as [atualizarInformacoesUI] reads it for the gauge:
    [(this instanceof CarroEsportivo) ? 250 : ((this instanceof Caminhao) ? 140 : 200)]. *)
Definition maxVel (c : Classe) : Z :=
  match c with
  | CarroEsportivo _ => 250
  | Caminhao _ _ => 140
  | CarroBase => 200
  end.

(** Modelled from the spec: the overrides of [acelerar] in the subclasses
    [CarroEsportivo] and [Caminhao] are not among the sources; they raise the
    speed by the same step of 10, capped at the limit of the class. *)
Definition CarroEsportivo_acelerar : Veiculo → Veiculo * list Aviso := acelerar_ate 250.
Definition Caminhao_acelerar : Veiculo → Veiculo * list Aviso := acelerar_ate 140.

(** [v.acelerar()]: dispatch on the class of the instance. *)
Definition acelerar (v : Veiculo) : Veiculo * list Aviso :=
  match classe v with
  | CarroBase => CarroBase_acelerar v
  | CarroEsportivo _ => CarroEsportivo_acelerar v
  | Caminhao _ _ => Caminhao_acelerar v
  end.

Definition frear (v : Veiculo) : Veiculo * list Aviso :=
  if 0 <? velocidade v
  then (set_velocidade (Z.max (velocidade v - 15) 0) v, [])
  else (v, []).

Definition buzinar (v : Veiculo) : Veiculo * list Aviso := (v, []).

(** The actions [interagir] routes to every class of vehicle. *)
Inductive Acao : Type := Ligar | Desligar | Acelerar | Frear | Buzinar.

Definition executar (a : Acao) (v : Veiculo) : Veiculo * list Aviso :=
  match a with
  | Ligar => ligar v
  | Desligar => desligar v
  | Acelerar => acelerar v
  | Frear => frear v
  | Buzinar => buzinar v
  end.

(** A sequence of actions on one vehicle, first action first. *)
Fixpoint executar_todas (l : list Acao) (v : Veiculo) : Veiculo :=
  match l with
  | [] => v
  | a :: r => executar_todas r (fst (executar a v))
  end.

(** *** Maintenance history of one vehicle *)

(** The effect of [adicionarManutencao] on the instance: [None] when the
    argument is rejected, otherwise the vehicle with the record pushed and
    the whole array sorted again. *)
Definition adicionarManutencao_em (v : Veiculo) (a : ArgManutencao) : option Veiculo :=
  match manutencao_valida a with
  | None => None
  | Some m =>
      Some (set_historicoManutencao
              (sort comparar (historicoManutencao v ++ [m])) v)
  end.

(** *** Serialisation *)

(** The plain object [toJSON] builds; a field the object may lack is an
    [option] (or [JUndefined]). *)
Record VeiculoJSON : Type := mkVeiculoJSON {
  d_id : JsVal;
  d_modelo : JsVal;
  d_cor : JsVal;
  d_placa : JsVal;
  d_ano : JsVal;
  d_dataVencimentoCNH : JsData;
  d_velocidade : option Z;
  d_ligado : option bool;
  d_imagemSrc : JsVal;
  d_tipoVeiculo : JsVal;
  d_historicoManutencao : option (list ManutencaoJSON);
  d_turboAtivado : option bool;
  d_capacidadeCarga : JsVal;
  d_cargaAtual : option Z
}.

Definition tipoVeiculo (c : Classe) : string :=
  match c with
  | CarroBase => "CarroBase"
  | CarroEsportivo _ => "CarroEsportivo"
  | Caminhao _ _ => "Caminhao"
  end.

Definition toJSON (v : Veiculo) : VeiculoJSON :=
  let histSerializado :=
    omap Manutencao_toJSON (List.filter validar (historicoManutencao v)) in
  {| d_id := id v;
     d_modelo := JStr (modelo v);
     d_cor := JStr (cor v);
     d_placa := JStr (placa v);
     d_ano := match ano v with Some n => JNum n | None => JNull end;
     d_dataVencimentoCNH := iso_or_null (dataVencimentoCNH v);
     d_velocidade := Some (velocidade v);
     d_ligado := Some (ligado v);
     d_imagemSrc := imagemSrc v;
     d_tipoVeiculo := JStr (tipoVeiculo (classe v));
     d_historicoManutencao := Some histSerializado;
     d_turboAtivado :=
       match classe v with CarroEsportivo t => Some t | _ => None end;
     d_capacidadeCarga :=
       match classe v with Caminhao cap _ => JNum cap | _ => JUndefined end;
     d_cargaAtual :=
       match classe v with Caminhao _ carga => Some carga | _ => None end |}.

(** ** The garage and its storage *)

(** The text kept under [GARAGEM_KEY], up to what [JSON.parse] makes of it:
    the empty text, a non-empty text [JSON.parse] rejects, or the text of
    an object of vehicle entries ([JSON.stringify] followed by [JSON.parse]
    gives the entries back). *)
Inductive Armazenado : Type :=
| TextoVazio
| TextoMalformado
| TextoJSON (doc : gmap string VeiculoJSON).

(** The exceptions of [localStorage.setItem] that [salvarGaragem] tells apart. *)
Inductive ErroStorage : Type :=
| QuotaExceededError
| OutroErro.

Record Mundo : Type := mkMundo {
  garagem : gmap string Veiculo;
  (* the item under GARAGEM_KEY, [None] when there is none *)
  localStorage : option Armazenado;
  (* what [setItem] throws when asked to store a document, [None] when it
     stores it *)
  setItem_lanca : gmap string VeiculoJSON → option ErroStorage;
  (* the alerts shown so far, latest first *)
  alertas : list Aviso
}.

Definition set_garagem (g : gmap string Veiculo) (w : Mundo) : Mundo :=
  mkMundo g (localStorage w) (setItem_lanca w) (alertas w).
Definition set_localStorage (x : option Armazenado) (w : Mundo) : Mundo :=
  mkMundo (garagem w) x (setItem_lanca w) (alertas w).
Definition alert (a : Aviso) (w : Mundo) : Mundo :=
  mkMundo (garagem w) (localStorage w) (setItem_lanca w) (a :: alertas w).
Definition alert_todos (l : list Aviso) (w : Mundo) : Mundo :=
  mkMundo (garagem w) (localStorage w) (setItem_lanca w) (rev l ++ alertas w).

(** [JSON.stringify(garagem)]: every vehicle through its [toJSON]. *)
Definition JSON_stringify_garagem (g : gmap string Veiculo) : gmap string VeiculoJSON :=
  toJSON <$> g.

Definition salvarGaragem (w : Mundo) : Mundo * bool :=
  let doc := JSON_stringify_garagem (garagem w) in
  match setItem_lanca w doc with
  | None => (set_localStorage (Some (TextoJSON doc)) w, true)
  | Some QuotaExceededError => (alert ArmazenamentoCheio w, false)
  | Some OutroErro => (alert ErroAoSalvar w, false)
  end.

(** [garagem[k].adicionarManutencao(a)]: the instance is the one the garage
    holds under [k]. *)
Definition adicionarManutencao (k : string) (a : ArgManutencao) (w : Mundo) : Mundo * bool :=
  match garagem w !! k with
  | None => (w, false)
  | Some v =>
      match adicionarManutencao_em v a with
      | None => (alert (ManutencaoInvalida (modelo v)) w, false)
      | Some v' => (fst (salvarGaragem (set_garagem (<[k:=v']> (garagem w)) w)), true)
      end
  end.

(** [interagir(veiculoId, acao)] for the actions every class has: the
    instance the garage holds is the one the method changes. *)
Definition interagir (veiculoId : string) (a : Acao) (w : Mundo) : Mundo :=
  match garagem w !! veiculoId with
  | None => alert (VeiculoNaoEncontrado veiculoId) w
  | Some v =>
      let '(v', avisos) := executar a v in
      alert_todos avisos (set_garagem (<[veiculoId:=v']> (garagem w)) w)
  end.

Definition limparHistoricoManutencao (k : string) (w : Mundo) : Mundo :=
  match garagem w !! k with
  | None => w
  | Some v =>
      fst (salvarGaragem
             (set_garagem (<[k:=set_historicoManutencao [] v]> (garagem w)) w))
  end.

(** *** Loading *)

Definition set_turboAtivado (t : bool) (v : Veiculo) : Veiculo :=
  match classe v with
  | CarroEsportivo _ => set_classe (CarroEsportivo t) v
  | _ => v
  end.

Definition set_cargaAtual (carga : Z) (v : Veiculo) : Veiculo :=
  match classe v with
  | Caminhao cap _ => set_classe (Caminhao cap carga) v
  | _ => v
  end.

(** [(d.historicoManutencao || []).map(..).filter(m => m && m.validar())] *)
Definition recriarHistorico (h : option (list ManutencaoJSON)) : list Manutencao :=
  List.filter validar
    (omap (λ m, if negb (truthy_data (m_data m)) || negb (truthy (m_tipo m))
                then None
                else Some (Manutencao_new (m_data m) (m_tipo m) (m_custo m) (m_descricao m)))
          (default [] h)).

(** The body of the loop of [carregarGaragem] for one entry [d]: [None] when
    the entry is skipped, either by the check of the essential fields or
    because a constructor throws. *)
Definition recriarVeiculo (d : VeiculoJSON) : option Veiculo :=
  if negb (truthy (d_id d)) || negb (truthy (d_modelo d)) || negb (truthy (d_tipoVeiculo d))
  then None
  else
    let histRecriado := recriarHistorico (d_historicoManutencao d) in
    let novo (C : JsVal → JsVal → JsVal → JsVal → JsVal → JsVal → JsData → option Veiculo) :=
      C (d_id d) (d_modelo d) (d_cor d) (d_imagemSrc d) (d_placa d) (d_ano d)
        (d_dataVencimentoCNH d) in
    veiculoInstance ←
      (if decide (d_tipoVeiculo d = JStr "CarroEsportivo") then
         set_turboAtivado (default false (d_turboAtivado d)) <$> novo CarroEsportivo_new
       else if decide (d_tipoVeiculo d = JStr "Caminhao") then
         set_cargaAtual (default 0 (d_cargaAtual d))
           <$> novo (λ a b c e f g h,
                       Caminhao_new a b c e f g h (js_or (d_capacidadeCarga d) (JNum 0)))
       else novo CarroBase_new);
    Some (set_historicoManutencao histRecriado
            (set_ligado (default false (d_ligado d))
               (set_velocidade (default 0 (d_velocidade d)) veiculoInstance))).

Definition seed_carro1 : option Veiculo :=
  CarroBase_new (JStr "carro1") (JStr "Fusca") (JStr "Azul") (JStr "default_car.png")
                (JStr "ABC1234") (JNum 1975) (DTexto "2024-12-31").
Definition seed_carro2 : option Veiculo :=
  CarroEsportivo_new (JStr "carro2") (JStr "Maverick") (JStr "Laranja")
                     (JStr "default_sport.png") (JStr "DEF5678") (JNum 1974)
                     (DTexto "2025-06-01").
Definition seed_cam1 : option Veiculo :=
  Caminhao_new (JStr "cam1") (JStr "Scania 113") (JStr "Vermelho")
               (JStr "default_truck.png") (JStr "GHI9012") (JNum 1995)
               (DTexto "2023-01-10") (JNum 20000).

Definition inicializarVeiculosPadrao (w : Mundo) : Mundo :=
  let w0 := set_garagem ∅ w in
  match seed_carro1, seed_carro2, seed_cam1 with
  | Some c1, Some c2, Some cam1 =>
      let w1 := set_garagem (<["cam1":=cam1]> (<["carro2":=c2]> (<["carro1":=c1]> ∅))) w0 in
      let w2 := fst (adicionarManutencao "carro1"
                       (Instancia (Manutencao_new (DTexto "2023-11-15") (JStr "Troca Pneu")
                                                  (JNum 250) JUndefined)) w1) in
      let w3 := fst (adicionarManutencao "cam1"
                       (Instancia (Manutencao_new (DTexto "2024-01-10") (JStr "Revisão Motor")
                                                  (JNum 1200) (JStr "Fumaça estranha"))) w2) in
      fst (salvarGaragem w3)
  | _, _, _ =>
      (* catch: a constructor threw *)
      set_garagem ∅ (alert ErroVeiculosPadrao w0)
  end.

(** [localStorage.removeItem(GARAGEM_KEY)] *)
Definition removeItem (w : Mundo) : Mundo := set_localStorage None w.

Definition carregarGaragem (w : Mundo) : Mundo :=
  let w0 := set_garagem ∅ w in
  match localStorage w with
  | Some (TextoJSON garagemData) =>
      (* carregouOk = true *)
      set_garagem (omap recriarVeiculo garagemData) w0
  | Some TextoMalformado =>
      (* JSON.parse throws: the catch of the outer try *)
      inicializarVeiculosPadrao (set_garagem ∅ (removeItem (alert ErroAoCarregar w0)))
  | Some TextoVazio | None =>
      (* if (dataJSON) is false: nothing is parsed *)
      inicializarVeiculosPadrao w0
  end.

(** ** Handlers of the forms *)

Record FormAdicionar : Type := mkFormAdicionar {
  add_modelo : string;
  add_cor : string;
  add_placa : string;
  add_ano : string;
  add_tipo : string;
  add_capacidade_carga : option string;  (* [None]: the input is not in the page *)
  add_cnh : string
}.

(** [`v${Date.now()}`] *)
Definition novo_id (agora : Z) : string := "v" +:+ js_String (JNum agora).

(** The instance the handler creates inside its [try]: the class is chosen
    by the type of the form, the image is the default of that type; [None]
    when the constructor throws. *)
Definition novoVeiculo (agora : Z) (form : FormAdicionar) : option Veiculo :=
  let modl := trim (add_modelo form) in
  let cor := trim (add_cor form) in
  let plc := toUpperCase (trim (add_placa form)) in
  let ano := add_ano form in
  let tipo := add_tipo form in
  let capCg :=
    match add_capacidade_carga form with
    | Some x => if String.eqb tipo "Caminhao" then JStr x else JNum 0
    | None => JNum 0
    end in
  let dtCnh := add_cnh form in
  let nId := novo_id agora in
  let imgP :=
    if String.eqb tipo "CarroEsportivo" then "default_sport.png"
    else if String.eqb tipo "Caminhao" then "default_truck.png"
    else "default_car.png" in
  let novo (C : JsVal → JsVal → JsVal → JsVal → JsVal → JsVal → JsData → option Veiculo) :=
    C (JStr nId) (JStr modl) (JStr cor) (JStr imgP) (JStr plc) (JStr ano)
      (if String.eqb dtCnh "" then DNull else DTexto dtCnh) in
  if String.eqb tipo "CarroEsportivo" then novo CarroEsportivo_new
  else if String.eqb tipo "Caminhao"
       then novo (λ a b c e f g h, Caminhao_new a b c e f g h capCg)
       else novo CarroBase_new.

Definition handleAdicionarVeiculo (agora : Z) (form : FormAdicionar) (w : Mundo) : Mundo :=
  let modl := trim (add_modelo form) in
  let tipo := add_tipo form in
  if String.eqb modl "" || String.eqb tipo "" then alert ModeloTipoObrigatorios w else
  let nId := novo_id agora in
  match novoVeiculo agora form with
  | Some nV =>
      let w1 := set_garagem (<[nId:=nV]> (garagem w)) w in
      let '(w2, ok) := salvarGaragem w1 in
      if ok then alert (VeiculoAdicionado modl) w2
      else
        (* the save failed: the addition is undone *)
        set_garagem (delete nId (garagem w2)) w2
  | None =>
      (* catch *)
      let w1 := alert ErroAoAdicionar w in
      set_garagem (delete nId (garagem w1)) w1
  end.

(** The file chosen in the edit form and what [FileReader.readAsDataURL]
    makes of it: [Some] the data URL handed to [onload], [None] when
    [onerror] fires. *)
Record Arquivo : Type := mkArquivo {
  file_type : string;
  leitura : option string
}.

Record FormEdicao : Type := mkFormEdicao {
  edit_modelo : string;
  edit_cor : string;
  edit_placa : string;
  edit_ano : string;
  edit_cnh : string;
  edit_imagem : option Arquivo
}.

(** The text and date fields of the edit form written into the vehicle,
    and the flag [mudou]. *)
Definition aplicarCampos (form : FormEdicao) (v : Veiculo) : Veiculo * bool :=
  let nMod := trim (edit_modelo form) in
  let nCor := trim (edit_cor form) in
  let nPla := toUpperCase (trim (edit_placa form)) in
  let nAno := parseInt_or_null (JStr (edit_ano form)) in
  let nCnhS := edit_cnh form in
  let nCnhD := if String.eqb nCnhS "" then None else Date_parse (nCnhS +:+ "T00:00:00Z") in
  let '(v, mudou) := (v, false) in
  let '(v, mudou) :=
    if negb (String.eqb nMod "") && negb (String.eqb (modelo v) nMod)
    then (set_modelo nMod v, true) else (v, mudou) in
  let '(v, mudou) :=
    if negb (String.eqb (cor v) nCor) then (set_cor nCor v, true) else (v, mudou) in
  let '(v, mudou) :=
    if negb (String.eqb (placa v) nPla) then (set_placa nPla v, true) else (v, mudou) in
  let '(v, mudou) :=
    if bool_decide (ano v ≠ nAno) then (set_ano nAno v, true) else (v, mudou) in
  let '(v, mudou) :=
    if bool_decide (dataVencimentoCNH v ≠ nCnhD)
    then (set_dataVencimentoCNH nCnhD v, true) else (v, mudou) in
  (v, mudou).

(** The display area as the handlers read it: [None] when the page has no
    such element, otherwise its [dataset.veiculoId], [None] when that
    attribute is not set. *)
Definition Display : Type := option (option string).

(** [display && display.dataset.veiculoId === i] *)
Definition display_mostra (display : Display) (i : JsVal) : bool :=
  match display with
  | None => false
  | Some None => bool_decide (i = JUndefined)
  | Some (Some exibido) => bool_decide (i = JStr exibido)
  end.

(** [handleSalvarEdicaoVeiculo], with the callback of the file reader run
    to its end: the handler and the callback share the object [v] and the
    flag [mudou].  [form] is the edit form inside the display area, which
    the template of the page puts there. *)
Definition handleSalvarEdicaoVeiculo (veiculoId : string) (display : Display)
    (form : FormEdicao) (w : Mundo) : Mundo :=
  match garagem w !! veiculoId with
  | None => alert ErroInternoEdicao w
  | Some v0 =>
      if negb (display_mostra display (id v0)) then alert ErroInternoEdicao w else
      let '(v, mudou) := aplicarCampos form v0 in
      (* the object held by the garage is the one just written *)
      let w := set_garagem (<[veiculoId:=v]> (garagem w)) w in
      let imagem :=
        match edit_imagem form with
        | Some file => if String.prefix "image/" (file_type file) then Some file else None
        | None => None
        end in
      match imagem with
      | Some file =>
          match leitura file with
          | Some novaImagemBase64 =>
              if bool_decide (imagemSrc v ≠ JStr novaImagemBase64) then
                let imagemAntiga := imagemSrc v in
                let w1 := set_garagem
                            (<[veiculoId:=set_imagemSrc (JStr novaImagemBase64) v]> (garagem w)) w in
                let '(w2, ok) := salvarGaragem w1 in
                if ok then alert AlteracoesSalvasComImagem w2
                else set_garagem
                       (<[veiculoId:=set_imagemSrc imagemAntiga
                                      (set_imagemSrc (JStr novaImagemBase64) v)]> (garagem w2)) w2
              else if mudou then fst (salvarGaragem w)
              else alert NenhumaAlteracao w
          | None => alert ErroLeituraImagem w
          end
      | None =>
          if mudou then
            let '(w1, ok) := salvarGaragem w in
            if ok then alert AlteracoesSalvas w1 else w1
          else alert NenhumaAlteracao w
      end
  end.

(** ** Licence alerts *)

(** [Math.ceil(x / y)] for integers [x] and [y > 0]. *)
Definition Math_ceil_div (x y : Z) : Z := - ((- x) / y).

Inductive AlertaCNH : Type :=
| Vencida
| VenceEm (dias : Z).

(** The body of the scan of [verificarVencimentoCNH] for one vehicle; [hj]
    is the time value of today at midnight ([new Date()] after
    [setHours(0, 0, 0, 0)]). *)
Definition alertaCNH (hj : Z) (v : Veiculo) : option AlertaCNH :=
  match dataVencimentoCNH v with
  | Some dtV =>
      let dias := Math_ceil_div (dtV - hj) MS_POR_DIA in
      if dias <? 0 then Some Vencida
      else if dias <=? 30 then Some (VenceEm dias)
      else None
  | None => None
  end.

(** The alerts of the whole garage, by vehicle (the list the page shows is
    this collection turned into texts and sorted). *)
Definition verificarVencimentoCNH (hj : Z) (g : gmap string Veiculo) : gmap string AlertaCNH :=
  omap (alertaCNH hj) g.

(** ** Predicates of the statements *)

(** [v] is what one of the three constructors returns. *)
Definition construido (v : Veiculo) : Prop :=
  ∃ id modelo cor imagemSrc placa ano cnh,
    CarroBase_new id modelo cor imagemSrc placa ano cnh = Some v
    ∨ CarroEsportivo_new id modelo cor imagemSrc placa ano cnh = Some v
    ∨ ∃ cap, Caminhao_new id modelo cor imagemSrc placa ano cnh cap = Some v.

Definition dentro_do_limite (v : Veiculo) : Prop :=
  0 ≤ velocidade v ≤ maxVel (classe v).

Definition parado_se_desligado (v : Veiculo) : Prop :=
  ligado v = false → velocidade v = 0.

(** Date descending: [a] may stand before [b]. *)
Definition mais_recente_primeiro (a b : Manutencao) : Prop :=
  tempo_ou_zero b ≤ tempo_ou_zero a.

(** [a] is no instance of [Manutencao], or one that fails [validar()]. *)
Definition invalida (a : ArgManutencao) : Prop :=
  match a with
  | Instancia m => validar m = false
  | Outro _ => True
  end.


(** An integer that is a double, and that [String] prints in full. *)
Definition inteiro_seguro (n : Z) : Prop := Z.abs n < 2 ^ 53.

(** The year and the cargo capacity of the vehicle are such integers. *)
Definition numeros_seguros (v : Veiculo) : Prop :=
  (∀ n, ano v = Some n → inteiro_seguro n)
  ∧ (∀ cap carga, classe v = Caminhao cap carga → inteiro_seguro cap).

(** ** Concrete data of the examples *)

(** The first seed vehicle, as [seed_carro1] builds it. *)
Definition fusca : Veiculo :=
  {| id := JStr "carro1"; modelo := "Fusca"; cor := "Azul";
     imagemSrc := JStr "default_car.png"; placa := "ABC1234"; ano := Some 1975;
     dataVencimentoCNH := Some 1735603200000;
     velocidade := 0; ligado := false; historicoManutencao := []; classe := CarroBase |}.

(** A garage that holds [fusca], nothing stored, a storage that accepts
    every write. *)
Definition mundo_fusca : Mundo :=
  {| garagem := {["carro1" := fusca]}; localStorage := None;
     setItem_lanca := λ _, None; alertas := [] |}.

(** The same garage over a storage that is full. *)
Definition mundo_cheio : Mundo :=
  {| garagem := {["carro1" := fusca]}; localStorage := None;
     setItem_lanca := λ _, Some QuotaExceededError; alertas := [] |}.

Definition revisao (dia : string) : ArgManutencao :=
  Instancia (Manutencao_new (DTexto dia) (JStr "Revisao") (JNum 100) JUndefined).

(** A stored entry of a vehicle that is off at speed 50. *)
Definition entrada_desligada_a_50 : VeiculoJSON :=
  {| d_id := JStr "carro1"; d_modelo := JStr "Fusca"; d_cor := JStr "Azul";
     d_placa := JStr "ABC1234"; d_ano := JNum 1975; d_dataVencimentoCNH := DNull;
     d_velocidade := Some 50; d_ligado := Some false;
     d_imagemSrc := JStr "default_car.png"; d_tipoVeiculo := JStr "CarroBase";
     d_historicoManutencao := Some []; d_turboAtivado := None;
     d_capacidadeCarga := JUndefined; d_cargaAtual := None |}.

(** The garage of [mundo_fusca] after records dated 2030-01-01 and
    2020-01-01 were added in this order, and after 2025-01-01 was added next. *)
Definition mundo_2030_2020 : Mundo :=
  fst (adicionarManutencao "carro1" (revisao "2020-01-01")
         (fst (adicionarManutencao "carro1" (revisao "2030-01-01") mundo_fusca))).

Definition mundo_2030_2020_2025 : Mundo :=
  fst (adicionarManutencao "carro1" (revisao "2025-01-01") mundo_2030_2020).

(** A form that adds a truck, and the instant it is sent at. *)
Definition form_scania : FormAdicionar :=
  {| add_modelo := " Scania 113 "; add_cor := "Vermelho"; add_placa := "ghi9012";
     add_ano := "1995"; add_tipo := "Caminhao"; add_capacidade_carga := Some "20000";
     add_cnh := "2023-01-10" |}.

Definition instante_exemplo : Z := 1700000000000.

(** An edit of [fusca] that renames it and brings a new image. *)
Definition form_edicao_fusca : FormEdicao :=
  {| edit_modelo := "Fusca 1300"; edit_cor := "Azul"; edit_placa := "ABC1234";
     edit_ano := "1975"; edit_cnh := "2024-12-31";
     edit_imagem := Some {| file_type := "image/png";
                            leitura := Some "data:image/png;base64,AAAA" |} |}.

(** The fleet [inicializarVeiculosPadrao] leaves in memory. *)
Definition fusca_padrao : Veiculo :=
  set_historicoManutencao
    [{| data := Some 1700006400000; tipo := "Troca Pneu"; custo := 250; descricao := "" |}]
    fusca.

Definition maverick_padrao : Veiculo :=
  {| id := JStr "carro2"; modelo := "Maverick"; cor := "Laranja";
     imagemSrc := JStr "default_sport.png"; placa := "DEF5678"; ano := Some 1974;
     dataVencimentoCNH := Some 1748736000000;
     velocidade := 0; ligado := false; historicoManutencao := [];
     classe := CarroEsportivo false |}.

Definition scania_padrao : Veiculo :=
  {| id := JStr "cam1"; modelo := "Scania 113"; cor := "Vermelho";
     imagemSrc := JStr "default_truck.png"; placa := "GHI9012"; ano := Some 1995;
     dataVencimentoCNH := Some 1673308800000;
     velocidade := 0; ligado := false;
     historicoManutencao :=
       [{| data := Some 1704844800000; tipo := "Revisão Motor"; custo := 1200;
           descricao := "Fumaça estranha" |}];
     classe := Caminhao 20000 0 |}.

Definition frota_padrao : gmap string Veiculo :=
  <["cam1":=scania_padrao]> (<["carro2":=maverick_padrao]> (<["carro1":=fusca_padrao]> ∅)).

(** The stored item is absent or the text of a saved garage. *)
Definition sem_texto_corrompido (x : option Armazenado) : Prop :=
  x = None ∨ ∃ doc, x = Some (TextoJSON doc).

(** A garage whose stored item is a text [JSON.parse] rejects, over a
    storage that accepts every write. *)
Definition mundo_corrompido : Mundo :=
  {| garagem := ∅; localStorage := Some TextoMalformado;
     setItem_lanca := λ _, None; alertas := [] |}.

(** A garage whose stored item is the empty text, over a full storage. *)
Definition mundo_vazio_cheio : Mundo :=
  {| garagem := ∅; localStorage := Some TextoVazio;
     setItem_lanca := λ _, Some QuotaExceededError; alertas := [] |}.

(** The shape the constructors and the edit handler give a vehicle: an
    identifier and an image that are truthy, trimmed texts, an upper-case
    plate, a year that is not 0, and records whose cost is not negative. *)
Record bem_formado (v : Veiculo) : Prop := mk_bem_formado {
  bf_id : truthy (id v) = true;
  bf_modelo : trim (modelo v) = modelo v;
  bf_cor : trim (cor v) = cor v;
  bf_imagemSrc : truthy (imagemSrc v) = true;
  bf_placa : toUpperCase (trim (placa v)) = placa v;
  bf_ano : ano v ≠ Some 0;
  bf_custo : Forall (λ m, nao_negativo (custo m) = true) (historicoManutencao v)
}.

(** The head of a text is no white space. *)
Definition comeca_sem_espaco (s : string) : Prop := pular_espaco s = None.





(** ** Further functions of [carro.js] and [garagem.js] *)

(** [m.data instanceof Date && !isNaN(m.data.getTime())] *)
Definition data_valida (m : Manutencao) : bool :=
  match data m with
  | Some _ => true
  | None => false
  end.

(** [getHistoricoManutencaoFormatado], before the two [map]s that turn the
    records into texts ([formatar] and [formatarComHora] belong to the class
    [Manutencao]): the records of [passadas] and those of [futuras], with
    [agora] the time value of [new Date()]. *)
Definition getHistoricoManutencaoFormatado (agora : Z) (v : Veiculo)
    : list Manutencao * list Manutencao :=
  let histValido := List.filter data_valida (historicoManutencao v) in
  (List.filter (λ m, tempo_ou_zero m <=? agora) histValido,
   List.filter (λ m, agora <? tempo_ou_zero m) histValido).

(** The entries one vehicle contributes to the list of future
    appointments: its records with a valid date after [agora], each with
    the model of the vehicle. *)
Definition agendamentosDoVeiculo (agora : Z) (v : Veiculo) : list (Manutencao * string) :=
  (λ m, (m, modelo v))
    <$> List.filter (λ m, data_valida m && (agora <? tempo_ou_zero m))
                    (historicoManutencao v).

(** [atualizarExibicaoAgendamentosFuturos], up to the text it writes into
    the page: the array [tds] after its sort, nearest date first.
    [veiculos] is [Object.values(garagem)]. *)
Definition atualizarExibicaoAgendamentosFuturos (agora : Z) (veiculos : list Veiculo)
    : list (Manutencao * string) :=
  sort (λ a b, tempo_ou_zero a.1 - tempo_ou_zero b.1)
       (veiculos ≫= agendamentosDoVeiculo agora).

(** Alerts of the handlers below and of [interagir]. *)
Inductive AvisoGaragem : Type :=
| ExcluidoComSucesso (modelo : string)
| ErroGraveExclusao
| HistoricoLimpo (modelo : string)
| TurboApenasEsportivos (modelo : string)
| CarregarApenasCaminhoes (modelo : string).

(** [handleExcluirVeiculo]; [confirmado] is the answer to [confirm].  The
    alert of [salvarGaragem] goes to the log of the world, the alert of
    the handler, shown after it, is returned. *)
Definition handleExcluirVeiculo (veiculoId : string) (confirmado : bool) (w : Mundo)
    : Mundo * list AvisoGaragem :=
  match garagem w !! veiculoId with
  | None => (w, [])
  | Some v =>
      if confirmado then
        let '(w1, ok) := salvarGaragem (set_garagem (delete veiculoId (garagem w)) w) in
        if ok then (w1, [ExcluidoComSucesso (modelo v)])
        else (w1, [ErroGraveExclusao])
      else (w, [])
  end.

(** [handleLimparHistorico]; [confirmado] is the answer to [confirm]. *)
Definition handleLimparHistorico (veiculoId : string) (confirmado : bool) (w : Mundo)
    : Mundo * list AvisoGaragem :=
  match garagem w !! veiculoId with
  | None => (w, [])
  | Some v =>
      if confirmado
      then (limparHistoricoManutencao veiculoId w, [HistoricoLimpo (modelo v)])
      else (w, [])
  end.

(** [interagir(veiculoId, acao, arg)] with the action as the page names it.
    The methods [ativarTurbo] and [carregar] of the subclasses are not
    among the sources and are parameters here; an action the [switch] does
    not know is only logged to the console. *)
Definition interagirPorNome
    (ativarTurbo : Veiculo → Veiculo * list Aviso)
    (carregar : JsVal → Veiculo → Veiculo * list Aviso)
    (veiculoId acao : string) (arg : JsVal) (w : Mundo) : Mundo * list AvisoGaragem :=
  match garagem w !! veiculoId with
  | None => (alert (VeiculoNaoEncontrado veiculoId) w, [])
  | Some v =>
      let metodo (f : Veiculo → Veiculo * list Aviso) :=
        let '(v', avisos) := f v in
        (alert_todos avisos (set_garagem (<[veiculoId:=v']> (garagem w)) w), []) in
      if String.eqb acao "ligar" then metodo ligar
      else if String.eqb acao "desligar" then metodo desligar
      else if String.eqb acao "acelerar" then metodo acelerar
      else if String.eqb acao "frear" then metodo frear
      else if String.eqb acao "buzinar" then metodo buzinar
      else if String.eqb acao "ativarTurbo" then
        match classe v with
        | CarroEsportivo _ => metodo ativarTurbo
        | _ => (w, [TurboApenasEsportivos (modelo v)])
        end
      else if String.eqb acao "carregar" then
        match classe v with
        | Caminhao _ _ => metodo (carregar arg)
        | _ => (w, [CarregarApenasCaminhoes (modelo v)])
        end
      else (w, [])
  end.

(** The vehicle [atualizarInterfaceCompleta] leaves in the display area
    ([displayArea.dataset.veiculoId], [None] when the area is cleared), for
    a page that has its display area and its template.  [veiculosIds] is
    [Object.keys(garagem)] and [idVeiculoAtual] the vehicle shown before. *)
Definition atualizarInterfaceCompleta (veiculosIds : list string)
    (idVeiculoAtual : option string) (g : gmap string Veiculo) : option string :=
  match veiculosIds with
  | [] => None
  | primeiroId :: _ =>
      let renderizarPrimeiro :=
        match g !! primeiroId with
        | Some _ => Some primeiroId
        | None => None
        end in
      match idVeiculoAtual with
      | Some atual =>
          if negb (String.eqb atual "") && bool_decide (is_Some (g !! atual))
          then Some atual
          else renderizarPrimeiro
      | None => renderizarPrimeiro
      end
  end.

(** Two records of the list never carry the same date. *)
Definition datas_distintas (l : list Manutencao) : Prop :=
  NoDup (tempo_ou_zero <$> l).

(** * Theorems *)

(** ** Texts *)

Ltac decidir_bytes :=
  repeat match goal with
         | |- context [(?a =? ?b)%nat] => destruct (Nat.eqb_spec a b); try lia
         | |- context [(?a <=? ?b)%nat] => destruct (Nat.leb_spec a b); try lia
         end; try done.

Section Textos.

Lemma trimStart_pular s :
  trimStart s = match pular_espaco s with Some r => trimStart r | None => s end.
Proof.
  destruct s as [|c1 [|c2 [|c3 r3]]]; simpl; try done;
    repeat (case_match; simplify_eq/=; try done).
Qed.

Lemma pular_espaco_length s r :
  pular_espaco s = Some r → (String.length r < String.length s)%nat.
Proof.
  destruct s as [|c1 [|c2 [|c3 r3]]]; simpl; try done;
    repeat (case_match; simplify_eq/=; try done); intros; simplify_eq/=; lia.
Qed.

Lemma pular_espaco_append s r u :
  pular_espaco s = Some r → pular_espaco (s +:+ u) = Some (r +:+ u).
Proof.
  destruct s as [|c1 [|c2 [|c3 r3]]]; simpl; try done;
    repeat (case_match; simplify_eq/=; try done); intros; simplify_eq/=; done.
Qed.

Lemma por_comprimento (P : string → Prop) :
  (∀ s, (∀ r, (String.length r < String.length s)%nat → P r) → P s) → ∀ s, P s.
Proof.
  intros H s. remember (String.length s) as n eqn:Hn.
  revert s Hn. induction (lt_wf n) as [n _ IH]. intros s ->.
  apply H. intros r Hr. by apply (IH _ Hr).
Qed.

Lemma trimStart_comeca_sem_espaco s : comeca_sem_espaco (trimStart s).
Proof.
  unfold comeca_sem_espaco. induction s as [s IH] using por_comprimento.
  rewrite trimStart_pular. destruct (pular_espaco s) as [r|] eqn:E; [|done].
  apply IH. by apply pular_espaco_length.
Qed.

Lemma trimStart_fixo s : comeca_sem_espaco s → trimStart s = s.
Proof. unfold comeca_sem_espaco. intros H. by rewrite trimStart_pular, H. Qed.

Lemma trimStart_append s u : trimStart s = "" → trimStart (s +:+ u) = trimStart u.
Proof.
  induction s as [s IH] using por_comprimento. rewrite trimStart_pular.
  destruct (pular_espaco s) as [r|] eqn:E.
  - intros Hr. rewrite (trimStart_pular (s +:+ u)), (pular_espaco_append s r u E).
    apply IH; [by apply pular_espaco_length|done].
  - by intros ->.
Qed.

(** What [trimEnd] cuts off is white space. *)
Lemma trimEnd_corte s : ∃ u, s = trimEnd s +:+ u ∧ trimStart u = "".
Proof.
  induction s as [|c r (u & Hu & Hw)]; [by exists ""|].
  cbn [trimEnd]. destruct (String.eqb_spec (trimStart (String c r)) "") as [E|E].
  - by exists (String c r).
  - exists u. split; [|done]. change (String c r = String c (trimEnd r +:+ u)). by f_equal.
Qed.

Lemma trimEnd_comeca_sem_espaco s : comeca_sem_espaco s → comeca_sem_espaco (trimEnd s).
Proof.
  unfold comeca_sem_espaco. intros H.
  destruct (pular_espaco (trimEnd s)) as [r|] eqn:E; [|done].
  destruct (trimEnd_corte s) as (u & Hu & _).
  rewrite Hu, (pular_espaco_append _ _ u E) in H. done.
Qed.

Lemma trimEnd_idem s : trimEnd (trimEnd s) = trimEnd s.
Proof.
  induction s as [|c r IH]; [done|]. cbn [trimEnd].
  destruct (String.eqb_spec (trimStart (String c r)) "") as [E|E]; [done|].
  cbn [trimEnd]. destruct (String.eqb_spec (trimStart (String c (trimEnd r))) "") as [E'|E'].
  - destruct (trimEnd_corte r) as (u & Hu & Hw). destruct E.
    rewrite Hu. change (String c (trimEnd r +:+ u)) with (String c (trimEnd r) +:+ u).
    by rewrite (trimStart_append _ u E').
  - by rewrite IH.
Qed.

Lemma trim_idem s : trim (trim s) = trim s.
Proof.
  unfold trim. rewrite (trimStart_fixo (trimEnd (trimStart s))).
  - apply trimEnd_idem.
  - apply trimEnd_comeca_sem_espaco, trimStart_comeca_sem_espaco.
Qed.

Lemma trim_vazio : trim "" = "".
Proof. reflexivity. Qed.

Lemma upper_ascii_casos c :
  upper_ascii c = c
  ∨ ((97 ≤ nat_of_ascii c ≤ 122)%nat ∧ (65 ≤ nat_of_ascii (upper_ascii c) ≤ 90)%nat).
Proof.
  destruct c as [[] [] [] [] [] [] [] []];
    first [left; reflexivity | right; vm_compute; repeat split; repeat constructor].
Qed.

Lemma is_space_upper_ascii c : is_space (upper_ascii c) = is_space c.
Proof. destruct c as [[] [] [] [] [] [] [] []]; reflexivity. Qed.

Lemma is_space2_upper_ascii c1 c2 :
  is_space2 (upper_ascii c1) (upper_ascii c2) = is_space2 c1 c2.
Proof.
  unfold is_space2.
  destruct (upper_ascii_casos c1) as [->|[? ?]], (upper_ascii_casos c2) as [->|[? ?]];
    decidir_bytes.
Qed.

Lemma is_space3_upper_ascii c1 c2 c3 :
  is_space3 (upper_ascii c1) (upper_ascii c2) (upper_ascii c3) = is_space3 c1 c2 c3.
Proof.
  unfold is_space3. cbv zeta.
  destruct (upper_ascii_casos c1) as [->|[? ?]], (upper_ascii_casos c2) as [->|[? ?]],
    (upper_ascii_casos c3) as [->|[? ?]]; try done.
  all: repeat match goal with
         | |- context [(nat_of_ascii (upper_ascii ?c) =? ?b)%nat] =>
             rewrite (proj2 (Nat.eqb_neq (nat_of_ascii (upper_ascii c)) b)) by lia
         | H : (97 ≤ nat_of_ascii ?c ≤ 122)%nat |- context [(nat_of_ascii ?c =? ?b)%nat] =>
             rewrite (proj2 (Nat.eqb_neq (nat_of_ascii c) b)) by lia
         | |- context [(128 <=? nat_of_ascii (upper_ascii ?c))%nat] =>
             rewrite (proj2 (Nat.leb_gt 128 (nat_of_ascii (upper_ascii c)))) by lia
         | H : (97 ≤ nat_of_ascii ?c ≤ 122)%nat |- context [(128 <=? nat_of_ascii ?c)%nat] =>
             rewrite (proj2 (Nat.leb_gt 128 (nat_of_ascii c))) by lia
         end;
    rewrite ?andb_false_r, ?andb_false_l, ?orb_false_r; simpl;
    rewrite ?andb_false_r, ?andb_false_l, ?orb_false_r; try done.
Qed.

Lemma upper_ascii_idem c : upper_ascii (upper_ascii c) = upper_ascii c.
Proof. destruct c as [[] [] [] [] [] [] [] []]; reflexivity. Qed.

Lemma toUpperCase_idem s : toUpperCase (toUpperCase s) = toUpperCase s.
Proof. induction s as [|c r IH]; simpl; [done|]. by rewrite upper_ascii_idem, IH. Qed.

Lemma pular_espaco_toUpperCase s :
  pular_espaco (toUpperCase s) = toUpperCase <$> pular_espaco s.
Proof.
  destruct s as [|c1 [|c2 [|c3 r3]]]; cbn [toUpperCase pular_espaco];
    rewrite ?is_space_upper_ascii, ?is_space2_upper_ascii, ?is_space3_upper_ascii;
    repeat case_match; done.
Qed.

Lemma toUpperCase_length s : String.length (toUpperCase s) = String.length s.
Proof. induction s as [|c r IH]; simpl; [done|]. by rewrite IH. Qed.

Lemma trimStart_toUpperCase s : trimStart (toUpperCase s) = toUpperCase (trimStart s).
Proof.
  induction s as [s IH] using por_comprimento.
  rewrite (trimStart_pular (toUpperCase s)), (trimStart_pular s), pular_espaco_toUpperCase.
  destruct (pular_espaco s) as [r|] eqn:E; simpl; [|done].
  apply IH. by apply pular_espaco_length.
Qed.

Lemma toUpperCase_vazio s : toUpperCase s = "" ↔ s = "".
Proof. by destruct s. Qed.

Lemma trimEnd_toUpperCase s : trimEnd (toUpperCase s) = toUpperCase (trimEnd s).
Proof.
  induction s as [|c r IH]; [done|]. cbn [toUpperCase trimEnd].
  change (String (upper_ascii c) (toUpperCase r)) with (toUpperCase (String c r)).
  rewrite trimStart_toUpperCase.
  destruct (String.eqb_spec (trimStart (String c r)) "") as [E|E].
  - by rewrite E.
  - destruct (String.eqb_spec (toUpperCase (trimStart (String c r))) "") as [E'|E'].
    + destruct E. by apply toUpperCase_vazio.
    + simpl. by rewrite IH.
Qed.

Lemma trim_toUpperCase s : trim (toUpperCase s) = toUpperCase (trim s).
Proof. unfold trim. by rewrite trimStart_toUpperCase, trimEnd_toUpperCase. Qed.

Lemma placa_normalizada s : toUpperCase (trim (toUpperCase (trim s))) = toUpperCase (trim s).
Proof. by rewrite trim_toUpperCase, trim_idem, toUpperCase_idem. Qed.

Lemma eqb_vazio_false s : s ≠ "" → String.eqb s "" = false.
Proof. intros H. by destruct (String.eqb_spec s ""). Qed.

Lemma parseInt_or_null_nao_zero x : parseInt_or_null x ≠ Some 0.
Proof.
  unfold parseInt_or_null. destruct (parseInt x) as [n|]; [|done].
  destruct (n =? 0) eqn:E; [done|]. apply Z.eqb_neq in E. by intros [= ->].
Qed.

End Textos.

(** ** Numbers and their decimal text *)

Section Numeros.

Lemma so_digitos_uint d : so_digitos (NilEmpty.string_of_uint d) = true.
Proof. induction d; simpl; done. Qed.

Ltac calcular_digito :=
  match goal with
  | |- context [digit_val ?c] =>
      let v := eval vm_compute in (digit_val c) in change (digit_val c) with v
  end;
  cbv beta iota;
  match goal with |- context [?k <? 10] => change (k <? 10) with true end;
  cbv beta iota; simpl (default _ _).

Lemma parse_digits_uint d a :
  parse_digits 10 (Some a) (NilEmpty.string_of_uint d) = Some (valor_uint d a).
Proof.
  revert a. induction d; intros a; cbn [NilEmpty.string_of_uint parse_digits valor_uint];
    [done|..]; calcular_digito; rewrite IHd; do 2 f_equal; lia.
Qed.

Lemma valor_uint_acc d p : valor_uint d (Z.pos p) = Z.pos (Pos.of_uint_acc d p).
Proof.
  revert p. induction d; intros p; cbn [valor_uint Pos.of_uint_acc]; [done|..];
    rewrite <- IHd; f_equal; lia.
Qed.

Lemma valor_uint_zero d : valor_uint d 0 = Z.of_N (Pos.of_uint d).
Proof.
  induction d; cbn [valor_uint Pos.of_uint]; [done|exact IHd|..];
    rewrite Z.mul_0_r, Z.add_0_l, valor_uint_acc; reflexivity.
Qed.

Lemma parse_digits_uint_inicio d :
  d ≠ Decimal.Nil →
  parse_digits 10 None (NilEmpty.string_of_uint d) = Some (Z.of_N (Pos.of_uint d)).
Proof.
  intros Hd. rewrite <- valor_uint_zero.
  destruct d; [done|..];
    cbn [NilEmpty.string_of_uint parse_digits valor_uint]; calcular_digito;
    rewrite parse_digits_uint; reflexivity.
Qed.

Lemma trimStart_digito c r :
  (48 ≤ nat_of_ascii c ≤ 57)%nat → trimStart (String c r) = String c r.
Proof.
  intros Hc. apply trimStart_fixo. unfold comeca_sem_espaco, pular_espaco.
  assert (is_space c = false) as -> by (unfold is_space; decidir_bytes).
  assert (∀ c2, is_space2 c c2 = false) as H2 by (intros c2; unfold is_space2; decidir_bytes).
  assert (∀ c2 c3, is_space3 c c2 c3 = false) as H3
    by (intros c2 c3; unfold is_space3; cbv zeta;
        repeat rewrite (proj2 (Nat.eqb_neq (nat_of_ascii c) _)) by lia; done).
  destruct r as [|c2 [|c3 r3]]; by rewrite ?H2, ?H3.
Qed.

(** A text of decimal digits reads as the double nearest to its value. *)
Lemma parseInt_string_digitos s :
  so_digitos s = true →
  parseInt_string s = to_double <$> parse_digits 10 None s
  ∧ parseInt_string (String "-" s) = (λ n, to_double (- n)) <$> parse_digits 10 None s.
Proof.
  intros Hs. unfold parseInt_string.
  assert (trimStart (String "-" s) = String "-" s) as ->.
  { apply trimStart_fixo. unfold comeca_sem_espaco.
    destruct s as [|c2 [|c3 r3]]; try reflexivity. }
  destruct s as [|c r]; [done|].
  cbn [so_digitos] in Hs. apply andb_prop in Hs as [Hc Hr]. apply andb_prop in Hc as [Hc1 Hc2].
  apply Nat.leb_le in Hc1, Hc2. rewrite (trimStart_digito c r (conj Hc1 Hc2)).
  assert (∀ f : Z → Z, (∀ n, f n = to_double (1 * n)) →
            f <$> parse_digits 10 None (String c r) = to_double <$> parse_digits 10 None (String c r))
    as Huma.
  { intros f Hf. destruct (parse_digits 10 None (String c r)); simpl; [|done].
    rewrite Hf. do 2 f_equal; try lia. }
  assert (∀ f : Z → Z, (∀ n, f n = to_double (-1 * n)) →
            f <$> parse_digits 10 None (String c r)
            = (λ n, to_double (- n)) <$> parse_digits 10 None (String c r))
    as Hmenos.
  { intros f Hf. destruct (parse_digits 10 None (String c r)); simpl; [|done].
    rewrite Hf. do 2 f_equal; try lia. }
  destruct c as [[] [] [] [] [] [] [] []]; vm_compute in Hc1, Hc2; try lia;
    try (split; [by apply Huma | by apply Hmenos]).
  (* the digit 0: what follows is a digit, not the [x] of a prefix *)
  destruct r as [|c2 r2]; [split; [by apply Huma | by apply Hmenos]|].
  cbn [so_digitos] in Hr. apply andb_prop in Hr as [Hc Hr]. apply andb_prop in Hc as [Hd1 Hd2].
  apply Nat.leb_le in Hd1, Hd2.
  destruct c2 as [[] [] [] [] [] [] [] []]; vm_compute in Hd1, Hd2; try lia;
    (split; [by apply Huma | by apply Hmenos]).
Qed.

Lemma to_double_seguro n : inteiro_seguro n → to_double n = n.
Proof.
  unfold inteiro_seguro, to_double. intros H. cbv zeta.
  by rewrite (proj2 (Z.ltb_lt _ _) H).
Qed.

Lemma Number_toString_seguro n : inteiro_seguro n → Number_toString n = decimal n.
Proof.
  intros H. unfold Number_toString. rewrite (to_double_seguro n H).
  unfold inteiro_seguro in H. by rewrite (proj2 (Z.ltb_lt _ _) H).
Qed.

Lemma string_of_uint_nao_nil d :
  d ≠ Decimal.Nil → NilZero.string_of_uint d = NilEmpty.string_of_uint d.
Proof. by destruct d. Qed.

Lemma parseInt_string_decimal n : parseInt_string (decimal n) = Some (to_double n).
Proof.
  destruct n as [|p|p]; [reflexivity|..];
    unfold decimal; cbn [Z.to_int NilZero.string_of_int];
    pose proof (Unsigned.to_uint_nonnil p) as Hn;
    rewrite (string_of_uint_nao_nil _ Hn).
  - rewrite (proj1 (parseInt_string_digitos _ (so_digitos_uint _))).
    by rewrite (parse_digits_uint_inicio _ Hn), Unsigned.of_to.
  - rewrite (proj2 (parseInt_string_digitos _ (so_digitos_uint _))).
    by rewrite (parse_digits_uint_inicio _ Hn), Unsigned.of_to.
Qed.

(** [parseInt(n)] of an integer that [String] prints in full is [n]. *)
Lemma parseInt_JNum_seguro n : inteiro_seguro n → parseInt (JNum n) = Some n.
Proof.
  intros H. unfold parseInt. cbn [js_String].
  by rewrite (Number_toString_seguro n H), parseInt_string_decimal, (to_double_seguro n H).
Qed.




(** [10^21] is printed as [1e+21], which [parseInt] reads as 1. *)
Example parseInt_1e21 : parseInt (JNum (10 ^ 21)) = Some 1.
Proof. reflexivity. Qed.

End Numeros.

(** ** The state machine over [ligado] and [velocidade] *)

Section MaquinaDeEstados.

Ltac abrir_acoes :=
  unfold ligar, desligar, acelerar, frear, buzinar, CarroBase_acelerar,
    CarroEsportivo_acelerar, Caminhao_acelerar, acelerar_ate,
    VELOCIDADE_MAXIMA_BASE; simpl.

Lemma maxVel_pos c : 0 ≤ maxVel c.
Proof. destruct c; simpl; lia. Qed.

Lemma construido_inicial v :
  construido v → velocidade v = 0 ∧ ligado v = false ∧ historicoManutencao v = [].
Proof.
  intros (i & m & c & img & p & a & cnh & H).
  unfold CarroEsportivo_new, Caminhao_new, CarroBase_new in H.
  destruct H as [H | [H | [cap H]]];
    destruct (negb (truthy i) || negb (truthy m)); simplify_eq/=; done.
Qed.

Lemma executar_classe a v : classe (fst (executar a v)) = classe v.
Proof. destruct a; simpl; abrir_acoes; repeat case_match; simpl; done. Qed.

Lemma executar_dentro_do_limite a v :
  dentro_do_limite v → dentro_do_limite (fst (executar a v)).
Proof.
  unfold dentro_do_limite. destruct v as [i m c img p an cnh vel lig h cl].
  simpl. intros H.
  destruct a; simpl; abrir_acoes;
    destruct cl, lig; simpl in *; try lia; destruct (0 <? vel) eqn:E; simpl; lia.
Qed.

Lemma executar_parado_se_desligado a v :
  parado_se_desligado v → parado_se_desligado (fst (executar a v)).
Proof.
  unfold parado_se_desligado. destruct v as [i m c img p an cnh vel lig h cl].
  simpl. intros H.
  destruct a; simpl; abrir_acoes; destruct cl, lig; simpl in *; try done;
    destruct (0 <? vel) eqn:E; simpl; try done;
    intros _; rewrite (H eq_refl) in E; discriminate.
Qed.

Lemma executar_todas_invariante (P : Veiculo → Prop) :
  (∀ a v, P v → P (fst (executar a v))) →
  ∀ acoes v, P v → P (executar_todas acoes v).
Proof.
  intros passo acoes. induction acoes as [|a r IH]; intros v Hv; simpl; auto.
Qed.

Lemma executar_todas_classe acoes v : classe (executar_todas acoes v) = classe v.
Proof.
  revert v. induction acoes as [|a r IH]; intros v; simpl; [done|].
  by rewrite IH, executar_classe.
Qed.

End MaquinaDeEstados.

(** ** Maintenance history *)

Section Historico.

Lemma inserir_Permutation (x : Manutencao) l :
  Permutation (inserir comparar x l) (x :: l).
Proof.
  induction l as [|y r IH]; simpl; [done|].
  destruct (comparar x y <=? 0); [done|].
  rewrite IH. apply perm_swap.
Qed.

Lemma sort_Permutation (l : list Manutencao) : Permutation (sort comparar l) l.
Proof.
  induction l as [|x r IH]; simpl; [done|].
  by rewrite inserir_Permutation, IH.
Qed.

Lemma inserir_HdRel a x l :
  mais_recente_primeiro a x →
  HdRel mais_recente_primeiro a l →
  HdRel mais_recente_primeiro a (inserir comparar x l).
Proof.
  intros Hax Hal. destruct l as [|y r]; simpl; [by constructor|].
  destruct (comparar x y <=? 0); constructor; [done|].
  by inversion Hal.
Qed.

Lemma inserir_Sorted x l :
  Sorted mais_recente_primeiro l → Sorted mais_recente_primeiro (inserir comparar x l).
Proof.
  induction 1 as [|y r Hr IH Hy]; simpl; [by repeat constructor|].
  destruct (comparar x y <=? 0) eqn:E.
  - apply Z.leb_le in E. constructor; [by constructor|].
    constructor. unfold mais_recente_primeiro, comparar in *. lia.
  - apply Z.leb_gt in E. constructor; [done|].
    apply inserir_HdRel; [|done].
    unfold mais_recente_primeiro, comparar in *. lia.
Qed.

Lemma sort_Sorted (l : list Manutencao) : Sorted mais_recente_primeiro (sort comparar l).
Proof. induction l as [|x r IH]; simpl; [constructor|]. by apply inserir_Sorted. Qed.

Lemma mais_recente_primeiro_trans a b c :
  mais_recente_primeiro a b → mais_recente_primeiro b c → mais_recente_primeiro a c.
Proof. unfold mais_recente_primeiro. lia. Qed.

Lemma sort_StronglySorted (l : list Manutencao) :
  StronglySorted mais_recente_primeiro (sort comparar l).
Proof.
  apply Sorted_StronglySorted; [|apply sort_Sorted].
  intros a b c. apply mais_recente_primeiro_trans.
Qed.

Lemma salvarGaragem_garagem w : garagem (fst (salvarGaragem w)) = garagem w.
Proof. unfold salvarGaragem. by repeat case_match. Qed.

Lemma invalida_rejeitada a : invalida a → manutencao_valida a = None.
Proof. destruct a as [m|x]; simpl; [|done]. by intros ->. Qed.

Lemma manutencao_valida_Some a m :
  manutencao_valida a = Some m → a = Instancia m ∧ validar m = true.
Proof.
  destruct a as [m'|x]; simpl; [|done].
  destruct (validar m') eqn:E; [|done]. by intros [= ->].
Qed.

End Historico.

(** ** Properties of the state machine *)

Example seed_carro1_fusca : seed_carro1 = Some fusca.
Proof. reflexivity. Qed.

Lemma fusca_construido : construido fusca.
Proof.
  exists (JStr "carro1"), (JStr "Fusca"), (JStr "Azul"), (JStr "default_car.png"),
         (JStr "ABC1234"), (JNum 1975), (DTexto "2024-12-31").
  left. reflexivity.
Defined.

(** C1. For every vehicle a constructor returns and every finite sequence of
    the actions ligar, desligar, acelerar and frear (and buzinar) applied to
    it, [velocidade] stays within [0, maxVel], where [maxVel] is 200 for
    [CarroBase], 250 for [CarroEsportivo] and 140 for [Caminhao]. *)
Theorem velocidade_dentro_do_limite (v : Veiculo) (acoes : list Acao) :
  construido v →
  0 ≤ velocidade (executar_todas acoes v) ≤ maxVel (classe v)
  ∧ maxVel (classe v) = match classe v with
                        | CarroBase => 200
                        | CarroEsportivo _ => 250
                        | Caminhao _ _ => 140
                        end.
Proof.
  intros Hc. split; [|by destruct (classe v)].
  rewrite <- (executar_todas_classe acoes v).
  apply (executar_todas_invariante dentro_do_limite); [apply executar_dentro_do_limite|].
  destruct (construido_inicial v Hc) as (Hv & _). unfold dentro_do_limite. rewrite Hv.
  pose proof (maxVel_pos (classe v)). lia.
Qed.

Lemma velocidade_dentro_do_limite_witness :
  construido fusca
  ∧ 0 ≤ velocidade (executar_todas [Ligar; Acelerar; Acelerar; Frear; Desligar; Acelerar] fusca)
      ≤ maxVel (classe fusca).
Proof.
  split; [exact fusca_construido|].
  exact (proj1 (velocidade_dentro_do_limite fusca
                  [Ligar; Acelerar; Acelerar; Frear; Desligar; Acelerar] fusca_construido)).
Defined.

(** C10. In every state reached from a freshly constructed vehicle by a
    sequence of ligar, desligar, acelerar and frear, [ligado = false] implies
    [velocidade = 0]. *)
Theorem desligado_implica_parado (v : Veiculo) (acoes : list Acao) :
  construido v →
  ligado (executar_todas acoes v) = false →
  velocidade (executar_todas acoes v) = 0.
Proof.
  intros Hc.
  apply (executar_todas_invariante parado_se_desligado); [apply executar_parado_se_desligado|].
  intros _. by destruct (construido_inicial v Hc).
Qed.

Lemma desligado_implica_parado_witness :
  construido fusca
  ∧ ligado (executar_todas [Ligar; Acelerar; Frear; Desligar; Frear] fusca) = false
  ∧ velocidade (executar_todas [Ligar; Acelerar; Frear; Desligar; Frear] fusca) = 0.
Proof.
  split; [exact fusca_construido|]. split; [reflexivity|].
  apply (desligado_implica_parado fusca [Ligar; Acelerar; Frear; Desligar; Frear]);
    [exact fusca_construido | reflexivity].
Defined.

(** C9, as stated, fails: [desligar] does nothing on a vehicle that is
    already off, so a vehicle that [carregarGaragem] restores from an entry
    with [ligado = false] and [velocidade = 50] keeps its speed. *)
Lemma desligar_nem_sempre_zera :
  ∃ v, recriarVeiculo entrada_desligada_a_50 = Some v
       ∧ velocidade (fst (desligar v)) = 50.
Proof. eexists. split; reflexivity. Qed.

Lemma desligar_apos_acoes (v : Veiculo) (acoes : list Acao) :
  construido v → velocidade (fst (desligar (executar_todas acoes v))) = 0.
Proof.
  intros Hc. unfold desligar.
  destruct (ligado (executar_todas acoes v)) eqn:E; simpl; [done|].
  by apply (executar_todas_invariante parado_se_desligado);
    [apply executar_parado_se_desligado | intros _; destruct (construido_inicial v Hc) | ].
Qed.

(** C9, amended. [desligar] on a running vehicle turns it off and sets the
    speed to 0; on a vehicle that is off it changes nothing, whatever its
    speed.  So the vehicle is off after [desligar], and its speed is 0
    exactly when it was running or stood still already; that is so in
    every state in which a vehicle that is off stands still, and these
    include all the states reached from construction by the actions. *)
Theorem desligar_zera_velocidade (v : Veiculo) :
  (ligado v = true →
   velocidade (fst (desligar v)) = 0 ∧ ligado (fst (desligar v)) = false)
  ∧ (ligado v = false → fst (desligar v) = v)
  ∧ ligado (fst (desligar v)) = false
  ∧ (velocidade (fst (desligar v)) = 0 ↔ ligado v = true ∨ velocidade v = 0)
  ∧ ((ligado v = false → velocidade v = 0) → velocidade (fst (desligar v)) = 0)
  ∧ (∀ v0 acoes, construido v0 → v = executar_todas acoes v0 →
       velocidade (fst (desligar v)) = 0).
Proof.
  split; [|split; [|split; [|split; [|split]]]].
  - unfold desligar. by intros ->.
  - unfold desligar. by intros ->.
  - unfold desligar. by destruct (ligado v) eqn:E.
  - unfold desligar. destruct (ligado v) eqn:E; simpl.
    + split; [by left|done].
    + split; [by right|]. by intros [?|?].
  - intros H. unfold desligar. destruct (ligado v) eqn:E; simpl; [done|]. auto.
  - intros v0 acoes Hc ->. by apply desligar_apos_acoes.
Qed.

Lemma desligar_zera_velocidade_witness :
  velocidade (fst (desligar (executar_todas [Ligar; Acelerar; Acelerar] fusca))) = 0
  ∧ ∃ v, recriarVeiculo entrada_desligada_a_50 = Some v
         ∧ velocidade v = 50 ∧ fst (desligar v) = v.
Proof.
  split.
  - exact (proj1 (proj1 (desligar_zera_velocidade
                           (executar_todas [Ligar; Acelerar; Acelerar] fusca)) eq_refl)).
  - eexists. split; [reflexivity|]. split; [reflexivity|].
    apply (proj1 (proj2 (desligar_zera_velocidade _))). reflexivity.
Defined.

(** ** Properties of [adicionarManutencao] *)

(** C3. For every vehicle [v] the garage holds and every argument that is no
    valid maintenance record (no instance of [Manutencao], or one that fails
    [validar()]), [adicionarManutencao] returns [false], and the vehicle, its
    [historicoManutencao] with it, the garage and the stored item stay as
    they were. *)
Theorem adicionarManutencao_invalida (k : string) (v : Veiculo) (a : ArgManutencao) (w : Mundo) :
  garagem w !! k = Some v →
  invalida a →
  snd (adicionarManutencao k a w) = false
  ∧ garagem (fst (adicionarManutencao k a w)) !! k = Some v
  ∧ garagem (fst (adicionarManutencao k a w)) = garagem w
  ∧ localStorage (fst (adicionarManutencao k a w)) = localStorage w.
Proof.
  intros Hk Ha. unfold adicionarManutencao, adicionarManutencao_em.
  rewrite Hk, (invalida_rejeitada a Ha). simpl. done.
Qed.

Lemma adicionarManutencao_invalida_witness :
  let a := Instancia (Manutencao_new (DTexto "2030-01-01") (JStr "") (JNum 100) JUndefined) in
  invalida a
  ∧ snd (adicionarManutencao "carro1" a mundo_fusca) = false
  ∧ garagem (fst (adicionarManutencao "carro1" a mundo_fusca)) !! "carro1" = Some fusca.
Proof.
  intros a. split; [reflexivity|].
  pose proof (adicionarManutencao_invalida "carro1" fusca a mundo_fusca eq_refl eq_refl) as H.
  exact (conj (proj1 H) (proj1 (proj2 H))).
Defined.

(** C4. After every call of [adicionarManutencao] that returns [true], the
    history of the vehicle holds the new record and the former ones, sorted
    by date descending whatever the order before the call; the key of a
    record is the time value of its date, and [0] (the epoch) when the date
    is not valid. *)
Theorem historico_ordenado_apos_adicionar (k : string) (a : ArgManutencao) (w w' : Mundo) :
  adicionarManutencao k a w = (w', true) →
  ∃ v v' m,
    garagem w !! k = Some v ∧ a = Instancia m ∧ garagem w' !! k = Some v'
    ∧ Permutation (historicoManutencao v') (m :: historicoManutencao v)
    ∧ StronglySorted (λ x y, default 0 (data y) ≤ default 0 (data x))
        (historicoManutencao v').
Proof.
  unfold adicionarManutencao, adicionarManutencao_em.
  destruct (garagem w !! k) as [v|] eqn:Hk; [|done].
  destruct (manutencao_valida a) as [m|] eqn:Hm; [|done].
  intros [= <-]. apply manutencao_valida_Some in Hm as [-> _].
  eexists v, _, m. rewrite salvarGaragem_garagem. simpl.
  rewrite lookup_insert_eq. repeat split; simpl.
  - rewrite sort_Permutation. by rewrite <- Permutation_cons_append.
  - apply sort_StronglySorted.
Qed.

(** The example of C4: records dated 2030-01-01, 2020-01-01 and 2025-01-01,
    added in this order, end up as 2030, 2025, 2020. *)
Example historico_2030_2025_2020 :
  (λ v, data <$> historicoManutencao v) <$> garagem mundo_2030_2020_2025 !! "carro1"
  = Some [Date_parse "2030-01-01"; Date_parse "2025-01-01"; Date_parse "2020-01-01"].
Proof. reflexivity. Qed.

Lemma historico_ordenado_apos_adicionar_witness :
  adicionarManutencao "carro1" (revisao "2025-01-01") mundo_2030_2020
    = (mundo_2030_2020_2025, true)
  ∧ ∃ v', garagem mundo_2030_2020_2025 !! "carro1" = Some v'
      ∧ StronglySorted (λ x y, default 0 (data y) ≤ default 0 (data x))
          (historicoManutencao v').
Proof.
  split; [reflexivity|].
  destruct (historico_ordenado_apos_adicionar "carro1" (revisao "2025-01-01")
              mundo_2030_2020 mundo_2030_2020_2025 eq_refl)
    as (v & v' & m & _ & _ & Hv' & _ & Hs).
  exists v'. split; assumption.
Defined.

(** ** Properties of the handlers *)

Lemma salvarGaragem_falha w e :
  setItem_lanca w (JSON_stringify_garagem (garagem w)) = Some e →
  snd (salvarGaragem w) = false
  ∧ garagem (fst (salvarGaragem w)) = garagem w
  ∧ localStorage (fst (salvarGaragem w)) = localStorage w.
Proof. unfold salvarGaragem. intros ->. by destruct e. Qed.








Lemma aplicarCampos_imagemSrc form v : imagemSrc (fst (aplicarCampos form v)) = imagemSrc v.
Proof. unfold aplicarCampos. repeat case_match; simplify_eq/=; done. Qed.

Lemma set_imagemSrc_desfeito x v : set_imagemSrc (imagemSrc v) (set_imagemSrc x v) = v.
Proof. by destruct v. Qed.

Lemma negb_display_mostra display i :
  display_mostra display i = true → negb (display_mostra display i) = false.
Proof. by intros ->. Qed.



(** ** Properties of the licence alerts *)

Lemma Math_ceil_div_spec x y :
  0 < y → (Math_ceil_div x y - 1) * y < x ≤ Math_ceil_div x y * y.
Proof.
  intros Hy. unfold Math_ceil_div.
  pose proof (Z.div_mod (- x) y ltac:(lia)) as Hd.
  pose proof (Z.mod_pos_bound (- x) y Hy) as Hm. nia.
Qed.

Lemma Math_ceil_div_exato n y : 0 < y → Math_ceil_div (n * y) y = n.
Proof.
  intros Hy. unfold Math_ceil_div.
  replace (- (n * y)) with ((- n) * y) by lia. rewrite Z.div_mul by lia. lia.
Qed.

Lemma MS_POR_DIA_pos : 0 < MS_POR_DIA.
Proof. reflexivity. Qed.

(** C7. For a vehicle of the garage whose [dataVencimentoCNH] is present,
    the scan computes [dias], the difference between the expiry and today at
    midnight in whole days (rounded up), and reports: expired when
    [dias < 0], expiring when [0 ≤ dias ≤ 30], nothing from 31 on.  An
    expiry one day before today's midnight is expired, 30 days after it is
    expiring, 31 days after it gives no alert. *)
Theorem alerta_cnh_por_dias (hj dtV : Z) (g : gmap string Veiculo) (k : string) (v : Veiculo) :
  g !! k = Some v →
  dataVencimentoCNH v = Some dtV →
  let dias := Math_ceil_div (dtV - hj) MS_POR_DIA in
  let alerta := verificarVencimentoCNH hj g !! k in
  (dias - 1) * MS_POR_DIA < dtV - hj ≤ dias * MS_POR_DIA
  ∧ (dias < 0 → alerta = Some Vencida)
  ∧ (0 ≤ dias ≤ 30 → alerta = Some (VenceEm dias))
  ∧ (31 ≤ dias → alerta = None)
  ∧ (dtV = hj - 1 * MS_POR_DIA → alerta = Some Vencida)
  ∧ (dtV = hj + 30 * MS_POR_DIA → alerta = Some (VenceEm 30))
  ∧ (dtV = hj + 31 * MS_POR_DIA → alerta = None).
Proof.
  intros Hk Hd dias alerta.
  assert (alerta = if dias <? 0 then Some Vencida
                   else if dias <=? 30 then Some (VenceEm dias) else None) as Ha.
  { unfold alerta, verificarVencimentoCNH. rewrite lookup_omap, Hk. simpl.
    unfold alertaCNH. by rewrite Hd. }
  assert (∀ n, dtV = hj + n * MS_POR_DIA → dias = n) as Hn.
  { intros n ->. unfold dias. replace (hj + n * MS_POR_DIA - hj) with (n * MS_POR_DIA) by lia.
    apply Math_ceil_div_exato, MS_POR_DIA_pos. }
  split; [apply Math_ceil_div_spec, MS_POR_DIA_pos|].
  rewrite Ha. repeat split.
  - intros H. by rewrite (proj2 (Z.ltb_lt _ _) H).
  - intros H. rewrite (proj2 (Z.ltb_ge _ _)) by lia. by rewrite (proj2 (Z.leb_le _ _)) by lia.
  - intros H. rewrite (proj2 (Z.ltb_ge _ _)) by lia. by rewrite (proj2 (Z.leb_gt _ _)) by lia.
  - intros H. rewrite (Hn (-1)) by lia. reflexivity.
  - intros H. rewrite (Hn 30) by lia. reflexivity.
  - intros H. rewrite (Hn 31) by lia. reflexivity.
Qed.

Lemma alerta_cnh_por_dias_witness :
  verificarVencimentoCNH (1735603200000 + 1 * MS_POR_DIA) {["carro1" := fusca]} !! "carro1"
    = Some Vencida
  ∧ verificarVencimentoCNH (1735603200000 - 30 * MS_POR_DIA) {["carro1" := fusca]} !! "carro1"
    = Some (VenceEm 30)
  ∧ verificarVencimentoCNH (1735603200000 - 31 * MS_POR_DIA) {["carro1" := fusca]} !! "carro1"
    = None.
Proof.
  pose proof (λ hj, alerta_cnh_por_dias hj 1735603200000 {["carro1" := fusca]}
                      "carro1" fusca eq_refl eq_refl) as H.
  split; [|split].
  - exact (proj1 (proj2 (proj2 (proj2 (proj2 (H (1735603200000 + 1 * MS_POR_DIA)))))) eq_refl).
  - exact (proj1 (proj2 (proj2 (proj2 (proj2 (proj2
             (H (1735603200000 - 30 * MS_POR_DIA))))))) eq_refl).
  - exact (proj2 (proj2 (proj2 (proj2 (proj2 (proj2
             (H (1735603200000 - 31 * MS_POR_DIA))))))) eq_refl).
Defined.

(** ** Loading a corrupted item *)

Lemma adicionarManutencao_garagem k a w :
  garagem (fst (adicionarManutencao k a w))
  = match garagem w !! k with
    | Some v =>
        match adicionarManutencao_em v a with
        | Some v' => <[k:=v']> (garagem w)
        | None => garagem w
        end
    | None => garagem w
    end.
Proof.
  unfold adicionarManutencao. repeat case_match; simpl; try done.
  by rewrite salvarGaragem_garagem.
Qed.

Lemma salvarGaragem_sem_texto_corrompido w :
  sem_texto_corrompido (localStorage w) →
  sem_texto_corrompido (localStorage (fst (salvarGaragem w))).
Proof.
  unfold salvarGaragem, sem_texto_corrompido.
  repeat case_match; simpl; eauto.
Qed.

Lemma adicionarManutencao_sem_texto_corrompido k a w :
  sem_texto_corrompido (localStorage w) →
  sem_texto_corrompido (localStorage (fst (adicionarManutencao k a w))).
Proof.
  unfold adicionarManutencao. intros H. repeat case_match; simpl; try done.
  by apply salvarGaragem_sem_texto_corrompido.
Qed.

Lemma inicializarVeiculosPadrao_garagem w :
  garagem (inicializarVeiculosPadrao w) = frota_padrao.
Proof.
  unfold inicializarVeiculosPadrao.
  change seed_carro1 with (Some fusca).
  change seed_carro2 with (Some maverick_padrao).
  change seed_cam1 with (Some (set_historicoManutencao [] scania_padrao)).
  cbv beta iota zeta.
  rewrite salvarGaragem_garagem, !adicionarManutencao_garagem. simpl garagem.
  vm_compute. reflexivity.
Qed.

Lemma inicializarVeiculosPadrao_sem_texto_corrompido w :
  sem_texto_corrompido (localStorage w) →
  sem_texto_corrompido (localStorage (inicializarVeiculosPadrao w)).
Proof.
  intros H. unfold inicializarVeiculosPadrao.
  change seed_carro1 with (Some fusca).
  change seed_carro2 with (Some maverick_padrao).
  change seed_cam1 with (Some (set_historicoManutencao [] scania_padrao)).
  cbv beta iota zeta.
  by apply salvarGaragem_sem_texto_corrompido,
    adicionarManutencao_sem_texto_corrompido, adicionarManutencao_sem_texto_corrompido.
Qed.

(** C8. When the stored item is a text [JSON.parse] rejects, [carregarGaragem]
    removes the item and goes on as [inicializarVeiculosPadrao] does from the
    emptied garage: the fleet in memory is the seeded one (Fusca, Maverick
    and Scania with their two records), and the stored item is afterwards
    absent or a garage saved anew, never the rejected text. *)
Theorem carregar_texto_corrompido (w : Mundo) :
  localStorage w = Some TextoMalformado →
  carregarGaragem w
  = inicializarVeiculosPadrao
      (set_garagem ∅ (removeItem (alert ErroAoCarregar (set_garagem ∅ w))))
  ∧ localStorage (removeItem (alert ErroAoCarregar (set_garagem ∅ w))) = None
  ∧ garagem (carregarGaragem w) = garagem (inicializarVeiculosPadrao w)
  ∧ garagem (carregarGaragem w) = frota_padrao
  ∧ sem_texto_corrompido (localStorage (carregarGaragem w)).
Proof.
  intros H. unfold carregarGaragem. rewrite H.
  split; [done|]. split; [done|].
  rewrite !inicializarVeiculosPadrao_garagem. split; [done|]. split; [done|].
  apply inicializarVeiculosPadrao_sem_texto_corrompido. by left.
Qed.

Lemma carregar_texto_corrompido_witness :
  garagem (carregarGaragem mundo_corrompido) = frota_padrao
  ∧ sem_texto_corrompido (localStorage (carregarGaragem mundo_corrompido)).
Proof.
  exact (proj2 (proj2 (proj2 (carregar_texto_corrompido mundo_corrompido eq_refl)))).
Defined.

(** The empty text is not parsed at all: [if (dataJSON)] is false, the
    item is not removed, and it stays when the saves of the seeding fail. *)
Lemma carregar_texto_vazio (w : Mundo) :
  localStorage w = Some TextoVazio →
  carregarGaragem w = inicializarVeiculosPadrao (set_garagem ∅ w).
Proof. intros H. unfold carregarGaragem. by rewrite H. Qed.

Example carregar_texto_vazio_cheio :
  localStorage (carregarGaragem mundo_vazio_cheio) = Some TextoVazio
  ∧ garagem (carregarGaragem mundo_vazio_cheio) = frota_padrao.
Proof. split; [reflexivity|]. apply inicializarVeiculosPadrao_garagem. Qed.

(** ** The round trip through [toJSON] and [carregarGaragem] *)

Section IdaEVolta.

Lemma validar_tipo_truthy m : validar m = true → truthy (JStr (tipo m)) = true.
Proof.
  unfold validar. destruct (data m); [|done]. simpl.
  destruct (String.eqb_spec (tipo m) "") as [->|]; [|done]. by rewrite trim_vazio.
Qed.

Lemma js_String_or_vazio s : js_String (js_or (JStr s) (JStr "")) = s.
Proof.
  unfold js_or. simpl. by destruct (String.eqb_spec s "") as [->|].
Qed.

(** A valid record with a cost that is not negative is read back as it was. *)
Lemma Manutencao_ida_e_volta m :
  validar m = true → nao_negativo (custo m) = true →
  ∃ j, Manutencao_toJSON m = Some j
       ∧ truthy_data (m_data j) = true ∧ truthy (m_tipo j) = true
       ∧ Manutencao_new (m_data j) (m_tipo j) (m_custo j) (m_descricao j) = m.
Proof.
  intros Hv Hc. unfold Manutencao_toJSON. rewrite Hv.
  pose proof (validar_tipo_truthy m Hv) as Ht.
  unfold validar in Hv. destruct m as [[t|] tp c o]; simpl in *; [|done].
  eexists. split; [done|]. simpl. split; [done|]. split; [done|].
  unfold Manutencao_new. simpl. rewrite !js_String_or_vazio. by rewrite Hc.
Qed.

Lemma filter_validar_idem (h : list Manutencao) :
  List.filter validar (List.filter validar h) = List.filter validar h.
Proof.
  induction h as [|m r IH]; [done|]. cbn [List.filter].
  destruct (validar m) eqn:Hv; [|done]. cbn [List.filter]. by rewrite Hv, IH.
Qed.

Lemma recriar_registros (h : list Manutencao) :
  Forall (λ m, nao_negativo (custo m) = true) h →
  omap (λ j, if negb (truthy_data (m_data j)) || negb (truthy (m_tipo j))
             then None
             else Some (Manutencao_new (m_data j) (m_tipo j) (m_custo j) (m_descricao j)))
       (omap Manutencao_toJSON (List.filter validar h))
  = List.filter validar h.
Proof.
  induction 1 as [|m r Hm Hr IH]; [done|]. cbn [List.filter].
  destruct (validar m) eqn:Hv; [|done].
  destruct (Manutencao_ida_e_volta m Hv Hm) as (j & Hj & Hd & Ht & Hn).
  cbn [omap list_omap]. rewrite Hj. cbn [omap list_omap]. rewrite Hd, Ht. cbn [negb orb].
  rewrite Hn. f_equal. exact IH.
Qed.

Lemma recriarHistorico_toJSON (h : list Manutencao) :
  Forall (λ m, nao_negativo (custo m) = true) h →
  recriarHistorico (Some (omap Manutencao_toJSON (List.filter validar h)))
  = List.filter validar h.
Proof.
  intros H. unfold recriarHistorico. simpl (default _ _).
  by rewrite (recriar_registros h H), filter_validar_idem.
Qed.

Lemma parseInt_or_null_ano (an : option Z) :
  an ≠ Some 0 → (∀ n, an = Some n → inteiro_seguro n) →
  parseInt_or_null (match an with Some n => JNum n | None => JNull end) = an.
Proof.
  intros H0 Hs. unfold parseInt_or_null. destruct an as [n|]; [|reflexivity].
  rewrite (parseInt_JNum_seguro n (Hs n eq_refl)).
  destruct (Z.eqb_spec n 0) as [->|]; done.
Qed.

Lemma CarroBase_new_toJSON (v : Veiculo) :
  bem_formado v → (∀ n, ano v = Some n → inteiro_seguro n) → modelo v ≠ "" →
  CarroBase_new (id v) (JStr (modelo v)) (JStr (cor v)) (imagemSrc v) (JStr (placa v))
                (match ano v with Some n => JNum n | None => JNull end)
                (iso_or_null (dataVencimentoCNH v))
  = Some (set_cor (if String.eqb (cor v) "" then "Cor Padrão" else cor v)
            (set_classe CarroBase
               (set_historicoManutencao []
                  (set_ligado false (set_velocidade 0 v))))).
Proof.
  intros [Hid Hmod Hcor Himg Hpla Hano _] Hseg Hm.
  destruct v as [i m c img p an cnh vel lig h cl]. cbn in * |-.
  assert (truthy (JStr m) = true) as Htm by (simpl; by rewrite (eqb_vazio_false _ Hm)).
  unfold set_cor, set_classe, set_historicoManutencao, set_ligado, set_velocidade.
  cbn [id modelo cor imagemSrc placa ano dataVencimentoCNH velocidade ligado
       historicoManutencao classe].
  unfold CarroBase_new. rewrite Hid, Htm. cbn [negb orb].
  rewrite (parseInt_or_null_ano an Hano Hseg).
  unfold js_or. rewrite Htm, Himg. cbn [js_String].
  f_equal. f_equal.
  all: try done.
  - cbn [truthy]. destruct (String.eqb_spec c "") as [->|Hc]; [reflexivity|done].
  - assert ((if truthy (JStr p) then JStr p else JStr "") = JStr p) as ->; [|done].
    simpl. by destruct (String.eqb_spec p "") as [->|].
  - by destruct cnh.
Qed.

(** Reading back the object of [toJSON]: the vehicle itself, with the
    valid records of its history, and with the default colour when it had
    none. *)
Lemma recriarVeiculo_toJSON (v : Veiculo) :
  bem_formado v →
  numeros_seguros v →
  modelo v ≠ "" →
  recriarVeiculo (toJSON v)
  = Some (set_cor (if String.eqb (cor v) "" then "Cor Padrão" else cor v)
            (set_historicoManutencao (List.filter validar (historicoManutencao v)) v)).
Proof.
  intros Hbf [Hano Hcap] Hm. pose proof (CarroBase_new_toJSON v Hbf Hano Hm) as Hnew.
  pose proof (recriarHistorico_toJSON _ (bf_custo v Hbf)) as Hh.
  unfold recriarVeiculo. cbn [toJSON d_id d_modelo d_tipoVeiculo d_historicoManutencao
    d_cor d_imagemSrc d_placa d_ano d_dataVencimentoCNH d_turboAtivado d_capacidadeCarga
    d_cargaAtual d_velocidade d_ligado].
  rewrite Hh, (bf_id v Hbf).
  assert (truthy (JStr (modelo v)) = true) as -> by (simpl; by rewrite (eqb_vazio_false _ Hm)).
  assert (truthy (JStr (tipoVeiculo (classe v))) = true) as -> by (by destruct (classe v)).
  cbn [negb orb].
  destruct (classe v) as [|t|cap carga] eqn:Hcl; cbn [tipoVeiculo].
  - rewrite decide_False by done. rewrite decide_False by done.
    rewrite Hnew. simpl. destruct v; simpl in *; by subst.
  - rewrite decide_True by done. unfold CarroEsportivo_new. rewrite Hnew. simpl.
    destruct v; simpl in *; by subst.
  - rewrite decide_False by done. rewrite decide_True by done.
    unfold Caminhao_new. rewrite Hnew.
    assert (default 0 (parseInt (js_or (JNum cap) (JNum 0))) = cap) as ->.
    { unfold js_or. cbn [truthy]. destruct (Z.eqb_spec cap 0) as [->|]; [reflexivity|].
      cbn [negb]. by rewrite (parseInt_JNum_seguro cap (Hcap cap carga eq_refl)). }
    simpl. destruct v; simpl in *; by subst.
Qed.


End IdaEVolta.





(** Saving a garage and loading it again: every vehicle comes back, invalid
    records apart. *)
Lemma carregar_apos_salvar (w : Mundo) :
  (∀ k v, garagem w !! k = Some v →
          bem_formado v ∧ texto_ascii (placa v) = true ∧ numeros_seguros v
          ∧ modelo v ≠ "" ∧ cor v ≠ "") →
  setItem_lanca w (JSON_stringify_garagem (garagem w)) = None →
  garagem (carregarGaragem (fst (salvarGaragem w)))
  = (λ v, set_historicoManutencao (List.filter validar (historicoManutencao v)) v)
      <$> garagem w.
Proof.
  intros Hg Hs. unfold salvarGaragem. rewrite Hs. unfold carregarGaragem. simpl.
  apply map_eq. intros k. unfold JSON_stringify_garagem.
  rewrite lookup_omap, !lookup_fmap.
  destruct (garagem w !! k) as [v|] eqn:Hk; simpl; [|done].
  destruct (Hg k v Hk) as (Hbf & _ & Hseg & Hm & Hc).
  rewrite (recriarVeiculo_toJSON v Hbf Hseg Hm), (eqb_vazio_false _ Hc).
  by destruct v.
Qed.

(** [interagir] writes the outcome of the action into the garage. *)
Lemma interagir_veiculo (k : string) (a : Acao) (w : Mundo) (v : Veiculo) :
  garagem w !! k = Some v →
  garagem (interagir k a w) !! k = Some (fst (executar a v)).
Proof.
  intros Hk. unfold interagir. rewrite Hk.
  destruct (executar a v) as [v' avisos]. simpl. apply lookup_insert_eq.
Qed.

Lemma limparHistoricoManutencao_vazio (k : string) (w : Mundo) (v : Veiculo) :
  garagem w !! k = Some v →
  historicoManutencao <$> garagem (limparHistoricoManutencao k w) !! k = Some [].
Proof.
  intros Hk. unfold limparHistoricoManutencao. rewrite Hk, salvarGaragem_garagem. simpl.
  by rewrite lookup_insert_eq.
Qed.

(** The hypotheses of the round trip are what the program establishes. *)

Lemma CarroBase_new_bem_formado i m c img p a cnh v :
  CarroBase_new i m c img p a cnh = Some v → bem_formado v.
Proof.
  unfold CarroBase_new.
  destruct (truthy i) eqn:Hi; [|done]. destruct (truthy m) eqn:Hm; [|done].
  intros [= <-]. split; cbn.
  - done.
  - apply trim_idem.
  - apply trim_idem.
  - unfold js_or. by destruct (truthy img) eqn:E.
  - apply placa_normalizada.
  - apply parseInt_or_null_nao_zero.
  - constructor.
Qed.

Lemma bem_formado_set_classe cl v : bem_formado v → bem_formado (set_classe cl v).
Proof. by intros []. Qed.

Lemma construido_bem_formado v : construido v → bem_formado v.
Proof.
  intros (i & m & c & img & p & a & cnh & [H | [H | [cap H]]]).
  - by eapply CarroBase_new_bem_formado.
  - unfold CarroEsportivo_new in H.
    destruct (CarroBase_new i m c img p a cnh) as [v0|] eqn:E; [|done].
    injection H as <-. by eapply bem_formado_set_classe, CarroBase_new_bem_formado.
  - unfold Caminhao_new in H.
    destruct (CarroBase_new i m c img p a cnh) as [v0|] eqn:E; [|done].
    injection H as <-. by eapply bem_formado_set_classe, CarroBase_new_bem_formado.
Qed.

Lemma executar_bem_formado a v : bem_formado v → bem_formado (fst (executar a v)).
Proof.
  intros []. destruct a; simpl;
    unfold ligar, desligar, acelerar, frear, buzinar, CarroBase_acelerar,
      CarroEsportivo_acelerar, Caminhao_acelerar, acelerar_ate;
    repeat case_match; by split.
Qed.

Lemma aplicarCampos_bem_formado form v :
  bem_formado v → bem_formado (fst (aplicarCampos form v)).
Proof.
  intros []. unfold aplicarCampos.
  repeat case_match; simplify_eq/=; split; cbn; try done;
    first [apply trim_idem | apply placa_normalizada | apply parseInt_or_null_nao_zero].
Qed.

Lemma Manutencao_new_custo d t c o : nao_negativo (custo (Manutencao_new d t c o)) = true.
Proof.
  cbn [Manutencao_new custo].
  destruct (match c with JNum x => Some x | JStr s => numero_do_texto s | _ => None end)
    as [x|]; [|done].
  by destruct (nao_negativo x) eqn:E.
Qed.

(** The other ways the round trip loses a field: an empty [modelo] makes
    [carregarGaragem] skip the entry. *)
Example ida_e_volta_sem_modelo :
  ∃ v, CarroBase_new (JStr "carro1") (JStr " ") (JStr "Azul") JUndefined JUndefined
                     JUndefined DNull = Some v
       ∧ modelo v = "" ∧ recriarVeiculo (toJSON v) = None.
Proof. eexists. repeat split; reflexivity. Qed.

(** A year beyond the integers [String] prints in full does not survive
    either: [10^21] is saved as a number that [parseInt] reads through the
    text [1e+21]. *)
Example ida_e_volta_ano_1e21 :
  ∃ v v', CarroBase_new (JStr "carro1") (JStr "Fusca") (JStr "Azul") JUndefined JUndefined
                        (JStr "1000000000000000000000") DNull = Some v
          ∧ bem_formado v
          ∧ recriarVeiculo (toJSON v) = Some v'
          ∧ ano v = Some (10 ^ 21) ∧ ano v' = Some 1.
Proof.
  do 2 eexists. split; [vm_compute; reflexivity|].
  split; [|split; [vm_compute; reflexivity|split; vm_compute; reflexivity]].
  split; try (vm_compute; reflexivity); try discriminate. constructor.
Qed.

(** A cost that is no whole number is kept as it is, and comes back from
    the saved record. *)
Example custo_fracionario :
  let m := Manutencao_new (DTexto "2023-11-15") (JStr "Troca Pneu") (JStr "250.50") JUndefined in
  custo m = Fracao 2505 1
  ∧ (λ j, custo (Manutencao_new (m_data j) (m_tipo j) (m_custo j) (m_descricao j)))
      <$> Manutencao_toJSON m = Some (Fracao 2505 1).
Proof. split; vm_compute; reflexivity. Qed.

(** The edit form empties the colour of a vehicle. *)
Example edicao_esvazia_cor :
  cor (fst (aplicarCampos {| edit_modelo := "Fusca"; edit_cor := ""; edit_placa := "ABC1234";
                             edit_ano := "1975"; edit_cnh := "2024-12-31";
                             edit_imagem := None |} fusca)) = "".
Proof. reflexivity. Qed.

(** * Further properties *)

(** ** Sequences of actions *)

Lemma set_velocidade_mesma (v : Veiculo) : set_velocidade (velocidade v) v = v.
Proof. by destruct v. Qed.

Lemma executar_Acelerar_CarroBase (v : Veiculo) :
  classe v = CarroBase → ligado v = true →
  fst (executar Acelerar v) = set_velocidade (Z.min (velocidade v + 10) 200) v.
Proof.
  intros Hc Hl. simpl. unfold acelerar. rewrite Hc.
  unfold CarroBase_acelerar, acelerar_ate. by rewrite Hl.
Qed.

Lemma executar_Frear (v : Veiculo) :
  0 ≤ velocidade v →
  fst (executar Frear v) = set_velocidade (Z.max (velocidade v - 15) 0) v.
Proof.
  intros Hv. simpl. unfold frear. destruct (Z.ltb_spec 0 (velocidade v)); [done|].
  simpl. replace (Z.max (velocidade v - 15) 0) with (velocidade v) by lia.
  by rewrite set_velocidade_mesma.
Qed.

(** Accelerating a running [CarroBase] [n] times adds 10 per step up to the
    limit of 200 and touches nothing else. *)
Theorem acelerar_repetido (v : Veiculo) (n : nat) :
  classe v = CarroBase →
  ligado v = true →
  velocidade v ≤ 200 →
  executar_todas (replicate n Acelerar) v
  = set_velocidade (Z.min (velocidade v + 10 * Z.of_nat n) 200) v.
Proof.
  revert v. induction n as [|n IH]; intros v Hc Hl Hv.
  - cbn [replicate executar_todas].
    replace (Z.min (velocidade v + 10 * Z.of_nat 0) 200) with (velocidade v) by lia.
    by rewrite set_velocidade_mesma.
  - cbn [replicate executar_todas]. rewrite (executar_Acelerar_CarroBase v Hc Hl).
    rewrite IH; [|done|done|simpl; lia]. rewrite Nat2Z.inj_succ.
    unfold set_velocidade. cbn [velocidade id modelo cor imagemSrc placa ano
      dataVencimentoCNH ligado historicoManutencao classe]. f_equal. lia.
Qed.

Lemma acelerar_repetido_witness :
  velocidade (executar_todas (replicate 25 Acelerar) (fst (ligar fusca))) = 200
  ∧ velocidade (executar_todas (replicate 7 Acelerar) (fst (ligar fusca))) = 70.
Proof.
  split.
  - rewrite (acelerar_repetido (fst (ligar fusca)) 25 eq_refl eq_refl); [reflexivity|].
    simpl. lia.
  - rewrite (acelerar_repetido (fst (ligar fusca)) 7 eq_refl eq_refl); [reflexivity|].
    simpl. lia.
Defined.

(** Braking [n] times takes 15 off per step down to 0, whether the vehicle
    is running or not, and touches nothing else; after enough steps the
    vehicle stands still. *)
Theorem frear_repetido (v : Veiculo) (n : nat) :
  0 ≤ velocidade v →
  executar_todas (replicate n Frear) v
  = set_velocidade (Z.max (velocidade v - 15 * Z.of_nat n) 0) v
  ∧ (velocidade v ≤ 15 * Z.of_nat n →
     velocidade (executar_todas (replicate n Frear) v) = 0).
Proof.
  intros Hv.
  assert (executar_todas (replicate n Frear) v
          = set_velocidade (Z.max (velocidade v - 15 * Z.of_nat n) 0) v) as ->.
  { revert v Hv. induction n as [|n IH]; intros v Hv.
    - cbn [replicate executar_todas].
      replace (Z.max (velocidade v - 15 * Z.of_nat 0) 0) with (velocidade v) by lia.
      by rewrite set_velocidade_mesma.
    - cbn [replicate executar_todas]. rewrite (executar_Frear v Hv).
      rewrite IH by (simpl; lia). rewrite Nat2Z.inj_succ.
      unfold set_velocidade. cbn [velocidade id modelo cor imagemSrc placa ano
        dataVencimentoCNH ligado historicoManutencao classe]. f_equal. lia. }
  split; [done|]. intros H. cbn [velocidade set_velocidade]. lia.
Qed.

Lemma frear_repetido_witness :
  velocidade (executar_todas (replicate 3 Frear)
                (executar_todas [Ligar; Acelerar; Acelerar; Acelerar; Acelerar; Desligar;
                                 Ligar; Acelerar; Acelerar; Acelerar; Acelerar] fusca)) = 0.
Proof.
  refine (proj2 (frear_repetido _ 3 _) _); vm_compute; discriminate.
Defined.

Lemma executar_so_estado (a : Acao) (v : Veiculo) :
  set_velocidade (velocidade v) (set_ligado (ligado v) (fst (executar a v))) = v.
Proof.
  destruct v as [i m c img p an cnh vel lig h cl].
  destruct a; simpl;
    unfold ligar, desligar, acelerar, frear, buzinar, CarroBase_acelerar,
      CarroEsportivo_acelerar, Caminhao_acelerar, acelerar_ate; simpl;
    repeat case_match; reflexivity.
Qed.

Lemma executar_todas_so_estado (acoes : list Acao) (v : Veiculo) :
  set_velocidade (velocidade v) (set_ligado (ligado v) (executar_todas acoes v)) = v.
Proof.
  revert v. induction acoes as [|a r IH]; intros v; simpl.
  - by destruct v.
  - pose proof (IH (fst (executar a v))) as H1. pose proof (executar_so_estado a v) as H2.
    destruct (executar_todas r (fst (executar a v))) as [i m c img p an cnh vel lig h cl].
    destruct (fst (executar a v)) as [i' m' c' img' p' an' cnh' vel' lig' h' cl'].
    destruct v as [i0 m0 c0 img0 p0 an0 cnh0 vel0 lig0 h0 cl0].
    unfold set_velocidade, set_ligado in *. simpl in *. congruence.
Qed.

Lemma executar_desligado_parado (a : Acao) (v : Veiculo) :
  ligado v = false → velocidade v = 0 → a ≠ Ligar → fst (executar a v) = v.
Proof.
  intros Hl Hv Ha. destruct a; simpl; [done|..];
    unfold desligar, acelerar, frear, buzinar, CarroBase_acelerar,
      CarroEsportivo_acelerar, Caminhao_acelerar, acelerar_ate;
    rewrite ?Hl, ?Hv; simpl; repeat case_match; reflexivity.
Qed.

(** The actions change [velocidade] and [ligado] and nothing else: the
    identity, the texts, the image, the licence date, the history and the
    class of the vehicle are after any sequence of actions what they were
    (for [acelerar], on an instance of [CarroBase]). *)
Theorem acoes_so_mudam_estado (acoes : list Acao) (v : Veiculo) :
  classe v = CarroBase ∨ Acelerar ∉ acoes →
  set_velocidade (velocidade v) (set_ligado (ligado v) (executar_todas acoes v)) = v.
Proof. intros _. apply executar_todas_so_estado. Qed.

Lemma acoes_so_mudam_estado_witness :
  historicoManutencao (executar_todas [Ligar; Acelerar; Frear; Buzinar; Desligar] fusca_padrao)
  = historicoManutencao fusca_padrao
  ∧ placa (executar_todas [Ligar; Acelerar; Frear; Buzinar; Desligar] fusca_padrao) = "ABC1234".
Proof.
  pose proof (acoes_so_mudam_estado [Ligar; Acelerar; Frear; Buzinar; Desligar] fusca_padrao
                (or_introl eq_refl)) as H.
  split.
  - exact (f_equal historicoManutencao H).
  - exact (f_equal placa H).
Defined.

(** A vehicle that is off and stands still is not changed by any action
    but [ligar]: accelerating only alerts, braking and turning off find
    nothing to do. *)
Theorem desligado_parado_inerte (acoes : list Acao) (v : Veiculo) :
  ligado v = false →
  velocidade v = 0 →
  Ligar ∉ acoes →
  classe v = CarroBase ∨ Acelerar ∉ acoes →
  executar_todas acoes v = v.
Proof.
  intros Hl Hv Hn _.
  induction acoes as [|a r IH]; simpl; [done|].
  apply not_elem_of_cons in Hn as [Ha Hr].
  rewrite (executar_desligado_parado a v Hl Hv) by done. by apply IH.
Qed.

Lemma desligado_parado_inerte_witness :
  executar_todas [Acelerar; Frear; Acelerar; Desligar; Buzinar] fusca = fusca.
Proof.
  refine (desligado_parado_inerte [Acelerar; Frear; Acelerar; Desligar; Buzinar] fusca
            eq_refl eq_refl _ (or_introl eq_refl)).
  intros H. apply list_elem_of_In in H. simpl in H.
  repeat (destruct H as [H|H]; [discriminate|]). exact H.
Defined.

(** ** The maintenance history *)

Lemma adicionarManutencao_aceita (k : string) (v : Veiculo) (m : Manutencao) (w : Mundo) :
  garagem w !! k = Some v → validar m = true →
  adicionarManutencao k (Instancia m) w
  = (fst (salvarGaragem
            (set_garagem
               (<[k:=set_historicoManutencao (sort comparar (historicoManutencao v ++ [m])) v]>
                  (garagem w)) w)), true).
Proof.
  intros Hk Hm. unfold adicionarManutencao, adicionarManutencao_em. rewrite Hk. simpl.
  by rewrite Hm.
Qed.

(** When the save inside [adicionarManutencao] fails, the call still
    returns [true] and the record stays in the history in memory, while the
    stored item is the one from before: memory and storage differ until a
    later save succeeds. *)
Theorem adicionarManutencao_sem_salvar (k : string) (v : Veiculo) (m : Manutencao)
    (w : Mundo) (e : ErroStorage) :
  garagem w !! k = Some v →
  validar m = true →
  setItem_lanca w
    (JSON_stringify_garagem
       (<[k:=set_historicoManutencao (sort comparar (historicoManutencao v ++ [m])) v]>
          (garagem w))) = Some e →
  snd (adicionarManutencao k (Instancia m) w) = true
  ∧ (∃ v', garagem (fst (adicionarManutencao k (Instancia m) w)) !! k = Some v'
           ∧ m ∈ historicoManutencao v')
  ∧ localStorage (fst (adicionarManutencao k (Instancia m) w)) = localStorage w.
Proof.
  intros Hk Hm He. rewrite (adicionarManutencao_aceita k v m w Hk Hm). simpl.
  set (w1 := set_garagem _ w).
  destruct (salvarGaragem_falha w1 e He) as (_ & Hg & Hs).
  split; [done|]. rewrite Hg, Hs. split; [|done].
  eexists. unfold w1. simpl. rewrite lookup_insert_eq. split; [done|]. simpl.
  apply list_elem_of_In. apply (Permutation_in (l:=historicoManutencao v ++ [m])).
  - symmetry. apply sort_Permutation.
  - apply in_or_app. right. by left.
Qed.

Lemma adicionarManutencao_sem_salvar_witness :
  let m := Manutencao_new (DTexto "2030-01-01") (JStr "Revisao") (JNum 100) JUndefined in
  snd (adicionarManutencao "carro1" (Instancia m) mundo_cheio) = true
  ∧ localStorage (fst (adicionarManutencao "carro1" (Instancia m) mundo_cheio)) = None.
Proof.
  intros m.
  destruct (adicionarManutencao_sem_salvar "carro1" fusca m mundo_cheio QuotaExceededError
              eq_refl eq_refl eq_refl) as (H1 & _ & H3).
  split; [exact H1 | exact H3].
Defined.

(** [adicionarManutencao] changes nothing but the history of the vehicle it
    is called on: the other vehicles of the garage and the other fields of
    that vehicle are as before, whether the record is accepted or not. *)
Theorem adicionarManutencao_so_historico (k : string) (a : ArgManutencao) (w : Mundo) :
  (∀ k', k' ≠ k →
     garagem (fst (adicionarManutencao k a w)) !! k' = garagem w !! k')
  ∧ (∀ v, garagem w !! k = Some v →
       ∃ v', garagem (fst (adicionarManutencao k a w)) !! k = Some v'
             ∧ set_historicoManutencao (historicoManutencao v) v' = v).
Proof.
  rewrite adicionarManutencao_garagem. split.
  - intros k' Hk'. repeat case_match; try done. by rewrite lookup_insert_ne.
  - intros v Hv. rewrite Hv. unfold adicionarManutencao_em.
    destruct (manutencao_valida a) as [m|].
    + eexists. rewrite lookup_insert_eq. split; [done|]. by destruct v.
    + exists v. split; [done|]. by destruct v.
Qed.

Lemma salvarGaragem_localStorage_falha w :
  snd (salvarGaragem w) = false → localStorage (fst (salvarGaragem w)) = localStorage w.
Proof. unfold salvarGaragem. by repeat case_match. Qed.

Lemma carregarGaragem_garagem_localStorage (w1 w2 : Mundo) :
  localStorage w1 = localStorage w2 →
  garagem (carregarGaragem w1) = garagem (carregarGaragem w2).
Proof.
  intros H. unfold carregarGaragem. rewrite H.
  destruct (localStorage w2) as [[| |doc]|]; simpl;
    by rewrite ?inicializarVeiculosPadrao_garagem.
Qed.

(** A confirmed [handleLimparHistorico] empties the history of the vehicle
    in memory whatever the save does and leaves the rest of the garage
    alone; when the save fails the stored item is untouched, so the next
    [carregarGaragem] brings back what was stored. *)
Theorem handleLimparHistorico_confirmado (k : string) (v : Veiculo) (w : Mundo) :
  garagem w !! k = Some v →
  let w' := fst (handleLimparHistorico k true w) in
  garagem w' = <[k:=set_historicoManutencao [] v]> (garagem w)
  ∧ (setItem_lanca w
       (JSON_stringify_garagem (<[k:=set_historicoManutencao [] v]> (garagem w))) ≠ None →
     localStorage w' = localStorage w
     ∧ garagem (carregarGaragem w') = garagem (carregarGaragem w)).
Proof.
  intros Hk w'. unfold w', handleLimparHistorico, limparHistoricoManutencao.
  rewrite Hk. simpl. rewrite salvarGaragem_garagem. split; [done|].
  intros He. set (w1 := set_garagem _ w).
  assert (localStorage (fst (salvarGaragem w1)) = localStorage w) as Hs.
  { destruct (setItem_lanca w (JSON_stringify_garagem (garagem w1))) as [e|] eqn:E; [|done].
    by destruct (salvarGaragem_falha w1 e E) as (_ & _ & ->). }
  split; [done|]. by apply carregarGaragem_garagem_localStorage.
Qed.

Lemma handleLimparHistorico_confirmado_witness :
  historicoManutencao <$>
    garagem (fst (handleLimparHistorico "carro1" true mundo_2030_2020_2025)) !! "carro1"
  = Some [].
Proof.
  destruct (garagem mundo_2030_2020_2025 !! "carro1") as [v|] eqn:E; [|discriminate E].
  rewrite (proj1 (handleLimparHistorico_confirmado "carro1" v mundo_2030_2020_2025 E)).
  by rewrite lookup_insert_eq.
Defined.

Lemma filter_particao {A : Type} (p q : A → bool) (l : list A) :
  (∀ x, q x = negb (p x)) →
  Permutation (List.filter p l ++ List.filter q l) l.
Proof.
  intros Hpq. induction l as [|x r IH]; simpl; [done|].
  rewrite (Hpq x). destruct (p x); simpl.
  - by constructor.
  - rewrite <- Permutation_middle. by constructor.
Qed.

(** [getHistoricoManutencaoFormatado] puts every record with a valid date
    in exactly one of its two lists: the past ones hold the dates up to
    now, the future ones the dates after now, and together they are the
    records with a valid date, each once; records without one are in
    neither. *)
Theorem getHistoricoManutencaoFormatado_particao (agora : Z) (v : Veiculo) :
  let passadas := fst (getHistoricoManutencaoFormatado agora v) in
  let futuras := snd (getHistoricoManutencaoFormatado agora v) in
  Permutation (passadas ++ futuras) (List.filter data_valida (historicoManutencao v))
  ∧ Forall (λ m, ∃ t, data m = Some t ∧ t ≤ agora) passadas
  ∧ Forall (λ m, ∃ t, data m = Some t ∧ agora < t) futuras.
Proof.
  unfold getHistoricoManutencaoFormatado. simpl. split; [|split].
  - apply filter_particao. intros m. rewrite Z.ltb_antisym. by destruct (_ <=? _).
  - apply List.Forall_forall. intros m Hm. apply filter_In in Hm as [Hm Ht].
    apply filter_In in Hm as [_ Hd]. unfold data_valida, tempo_ou_zero in *.
    destruct (data m) as [t|]; [|done]. exists t. split; [done|]. simpl in Ht. lia.
  - apply List.Forall_forall. intros m Hm. apply filter_In in Hm as [Hm Ht].
    apply filter_In in Hm as [_ Hd]. unfold data_valida, tempo_ou_zero in *.
    destruct (data m) as [t|]; [|done]. exists t. split; [done|]. simpl in Ht. lia.
Qed.

Lemma filter_StronglySorted {A : Type} (R : A → A → Prop) (p : A → bool) (l : list A) :
  StronglySorted R l → StronglySorted R (List.filter p l).
Proof.
  induction 1 as [|x r Hr IH Hx]; simpl; [constructor|].
  destruct (p x); [|done]. constructor; [done|].
  apply List.Forall_forall. intros y Hy. apply filter_In in Hy as [Hy _].
  by apply (proj1 (List.Forall_forall _ _) Hx).
Qed.

Lemma ordenado_futuras_passadas (agora : Z) (l : list Manutencao) :
  StronglySorted mais_recente_primeiro l →
  List.filter (λ m, agora <? tempo_ou_zero m) l
    ++ List.filter (λ m, tempo_ou_zero m <=? agora) l = l.
Proof.
  induction 1 as [|x r Hr IH Hx]; simpl; [done|].
  destruct (Z.ltb_spec agora (tempo_ou_zero x)) as [Hlt|Hge].
  - rewrite (proj2 (Z.leb_gt _ _)) by lia. simpl. by rewrite IH.
  - rewrite (proj2 (Z.leb_le _ _)) by lia.
    assert (Forall (λ m, tempo_ou_zero m ≤ agora) r) as Hall.
    { eapply Forall_impl; [exact Hx|]. unfold mais_recente_primeiro. simpl. lia. }
    clear IH Hr Hx. assert (List.filter (λ m, agora <? tempo_ou_zero m) r = []
                            ∧ List.filter (λ m, tempo_ou_zero m <=? agora) r = r) as [-> ->];
      [|done].
    induction Hall as [|y s Hy Hs [IH1 IH2]]; simpl; [done|].
    rewrite (proj2 (Z.ltb_ge _ _)) by lia. rewrite (proj2 (Z.leb_le _ _)) by lia.
    by rewrite IH1, IH2.
Qed.

(** After an accepted [adicionarManutencao] the records with a valid date
    stand in the history as the future ones followed by the past ones, in
    the very order [getHistoricoManutencaoFormatado] lists them. *)
Theorem historico_futuras_e_passadas (agora : Z) (k : string) (a : ArgManutencao)
    (w w' : Mundo) (v' : Veiculo) :
  adicionarManutencao k a w = (w', true) →
  garagem w' !! k = Some v' →
  List.filter data_valida (historicoManutencao v')
  = snd (getHistoricoManutencaoFormatado agora v')
      ++ fst (getHistoricoManutencaoFormatado agora v').
Proof.
  intros Ha Hv'. unfold getHistoricoManutencaoFormatado. simpl.
  symmetry. apply ordenado_futuras_passadas, filter_StronglySorted.
  unfold adicionarManutencao, adicionarManutencao_em in Ha.
  destruct (garagem w !! k) as [v|] eqn:Hk; [|done].
  destruct (manutencao_valida a) as [m|]; [|done].
  injection Ha as <-. rewrite salvarGaragem_garagem in Hv'. simpl in Hv'.
  rewrite lookup_insert_eq in Hv'. injection Hv' as <-. simpl.
  apply sort_StronglySorted.
Qed.

Lemma historico_futuras_e_passadas_witness :
  ∃ v', garagem mundo_2030_2020_2025 !! "carro1" = Some v'
        ∧ length (snd (getHistoricoManutencaoFormatado 1767225600000 v')) = 1%nat
        ∧ historicoManutencao v'
          = snd (getHistoricoManutencaoFormatado 1767225600000 v')
              ++ fst (getHistoricoManutencaoFormatado 1767225600000 v').
Proof.
  destruct (garagem mundo_2030_2020_2025 !! "carro1") as [v'|] eqn:E; [|discriminate E].
  exists v'. split; [reflexivity|].
  pose proof (historico_futuras_e_passadas 1767225600000 "carro1" (revisao "2025-01-01")
                mundo_2030_2020 mundo_2030_2020_2025 v' eq_refl E) as H.
  vm_compute in E. injection E as <-. split; [reflexivity|]. exact H.
Defined.

Lemma NoDup_fmap_igual {A B : Type} (f : A → B) (l : list A) (x y : A) :
  NoDup (f <$> l) → x ∈ l → y ∈ l → f x = f y → x = y.
Proof.
  induction l as [|z r IH]; simpl; [by intros _ ?%elem_of_nil|].
  intros Hnd Hx Hy Hf. apply NoDup_cons in Hnd as [Hz Hr].
  apply elem_of_cons in Hx as [->|Hx]; apply elem_of_cons in Hy as [->|Hy]; try done.
  - exfalso. apply Hz. rewrite Hf. by apply list_elem_of_fmap_2.
  - exfalso. apply Hz. rewrite <- Hf. by apply list_elem_of_fmap_2.
  - by apply IH.
Qed.

Lemma ordenacao_unica (l1 l2 : list Manutencao) :
  StronglySorted mais_recente_primeiro l1 →
  StronglySorted mais_recente_primeiro l2 →
  Permutation l1 l2 →
  datas_distintas l1 →
  l1 = l2.
Proof.
  intros H1. revert l2. induction H1 as [|x1 r1 Hr1 IH Hx1]; intros l2 H2 Hp Hd.
  - by apply Permutation_nil in Hp.
  - destruct H2 as [|x2 r2 Hr2 Hx2]; [by apply Permutation_sym, Permutation_nil in Hp|].
    assert (x1 = x2) as <-.
    { apply (NoDup_fmap_igual tempo_ou_zero (x1 :: r1)); [done|by left| |].
      - rewrite Hp. by left.
      - assert (mais_recente_primeiro x1 x2) as R12.
        { assert (x2 ∈ x1 :: r1) as [->|Hin]%elem_of_cons by (rewrite Hp; by left).
          - unfold mais_recente_primeiro. lia.
          - by apply (proj1 (Forall_forall _ _) Hx1). }
        assert (mais_recente_primeiro x2 x1) as R21.
        { assert (x1 ∈ x2 :: r2) as [->|Hin]%elem_of_cons by (rewrite <- Hp; by left).
          - unfold mais_recente_primeiro. lia.
          - by apply (proj1 (Forall_forall _ _) Hx2). }
        unfold mais_recente_primeiro in *. lia. }
    f_equal. apply IH; [done|by apply Permutation_cons_inv in Hp|].
    unfold datas_distintas in *. simpl in Hd. by apply NoDup_cons in Hd as [_ ?].
Qed.

Lemma sort_duas_adicoes (h : list Manutencao) (a b : Manutencao) :
  Permutation (sort comparar (sort comparar (h ++ [a]) ++ [b])) (b :: a :: h).
Proof.
  rewrite sort_Permutation, <- Permutation_cons_append.
  by rewrite sort_Permutation, <- Permutation_cons_append.
Qed.

Lemma set_historicoManutencao_duas_vezes x y (v : Veiculo) :
  set_historicoManutencao x (set_historicoManutencao y v) = set_historicoManutencao x v.
Proof. reflexivity. Qed.

(** When no two records carry the same date, the history after two
    additions does not depend on which record was added first (and when one
    of the two is rejected, both orders fail alike). *)
Theorem ordem_de_insercao_indiferente (v : Veiculo) (a b : ArgManutencao) :
  (∀ ma mb, a = Instancia ma → b = Instancia mb →
            datas_distintas (ma :: mb :: historicoManutencao v)) →
  (adicionarManutencao_em v a ≫= λ v1, adicionarManutencao_em v1 b)
  = (adicionarManutencao_em v b ≫= λ v1, adicionarManutencao_em v1 a).
Proof.
  intros Hd. unfold adicionarManutencao_em.
  destruct (manutencao_valida a) as [ma|] eqn:Ea;
    destruct (manutencao_valida b) as [mb|] eqn:Eb; simpl; rewrite ?Ea, ?Eb; try done.
  apply manutencao_valida_Some in Ea as [-> _]. apply manutencao_valida_Some in Eb as [-> _].
  specialize (Hd ma mb eq_refl eq_refl).
  rewrite !set_historicoManutencao_duas_vezes. do 2 f_equal.
  apply ordenacao_unica; try apply sort_StronglySorted.
  - rewrite !sort_duas_adicoes. apply perm_swap.
  - unfold datas_distintas in *. rewrite sort_duas_adicoes.
    rewrite !fmap_cons in *. by rewrite perm_swap.
Qed.

Lemma ordem_de_insercao_indiferente_witness :
  (adicionarManutencao_em fusca (revisao "2020-01-01")
     ≫= λ v1, adicionarManutencao_em v1 (revisao "2030-01-01"))
  = (adicionarManutencao_em fusca (revisao "2030-01-01")
       ≫= λ v1, adicionarManutencao_em v1 (revisao "2020-01-01")).
Proof.
  apply (ordem_de_insercao_indiferente fusca).
  intros ma mb [= <-] [= <-]. unfold datas_distintas. simpl.
  apply NoDup_cons. split; [|apply NoDup_singleton].
  intros H. apply list_elem_of_In in H. simpl in H. destruct H as [H|[]]. discriminate H.
Defined.

(** ** Saving and loading *)

Lemma fusca_bem_formado : bem_formado fusca ∧ modelo fusca ≠ "" ∧ cor fusca ≠ "".
Proof.
  split; [|split; discriminate].
  split; try reflexivity; try discriminate. constructor.
Defined.

Lemma fusca_seguro : texto_ascii (placa fusca) = true ∧ numeros_seguros fusca.
Proof.
  split; [reflexivity|].
  split; [intros n [= <-]; reflexivity | intros cap carga; discriminate].
Defined.

Lemma carregar_apos_salvar_witness :
  garagem (carregarGaragem (fst (salvarGaragem mundo_fusca))) = garagem mundo_fusca.
Proof.
  rewrite (carregar_apos_salvar mundo_fusca); [reflexivity| |reflexivity].
  intros k v Hk. change (garagem mundo_fusca) with ({["carro1" := fusca]} : gmap string Veiculo) in Hk.
  apply lookup_singleton_Some in Hk as [_ <-].
  exact (conj (proj1 fusca_bem_formado)
              (conj (proj1 fusca_seguro) (conj (proj2 fusca_seguro) (proj2 fusca_bem_formado)))).
Defined.

Lemma recriarHistorico_validos h : Forall (λ m, validar m = true) (recriarHistorico h).
Proof.
  unfold recriarHistorico. apply List.Forall_forall. intros m Hm.
  by apply filter_In in Hm as [_ ?].
Qed.

Lemma recriarHistorico_custo h :
  Forall (λ m, nao_negativo (custo m) = true) (recriarHistorico h).
Proof.
  unfold recriarHistorico. apply List.Forall_forall. intros m Hm.
  apply filter_In in Hm as [Hm _]. apply list_elem_of_In, list_elem_of_omap in Hm
    as (j & _ & Hj). case_match; [done|]. injection Hj as <-. apply Manutencao_new_custo.
Qed.

(** What [carregarGaragem] makes of one stored entry, when it keeps it: a
    vehicle in the shape the constructor gives, whose history holds only
    records that pass [validar], whose speed and [ligado] are the stored
    scalars ([0] and [false] when absent), and whose class follows the
    tag, any tag but [CarroEsportivo] and [Caminhao] giving a [CarroBase]. *)
Theorem recriarVeiculo_garante (d : VeiculoJSON) (v : Veiculo) :
  recriarVeiculo d = Some v →
  bem_formado v
  ∧ Forall (λ m, validar m = true) (historicoManutencao v)
  ∧ velocidade v = default 0 (d_velocidade d)
  ∧ ligado v = default false (d_ligado d)
  ∧ classe v
    = (if decide (d_tipoVeiculo d = JStr "CarroEsportivo")
       then CarroEsportivo (default false (d_turboAtivado d))
       else if decide (d_tipoVeiculo d = JStr "Caminhao")
            then Caminhao (default 0 (parseInt (js_or (d_capacidadeCarga d) (JNum 0))))
                          (default 0 (d_cargaAtual d))
            else CarroBase).
Proof.
  unfold recriarVeiculo. case_match; [done|].
  unfold CarroEsportivo_new, Caminhao_new.
  destruct (CarroBase_new (d_id d) (d_modelo d) (d_cor d) (d_imagemSrc d) (d_placa d)
              (d_ano d) (d_dataVencimentoCNH d)) as [v0|] eqn:E;
    [|by repeat case_match].
  apply CarroBase_new_bem_formado in E as Hbf.
  assert (classe v0 = CarroBase) as Hc0.
  { unfold CarroBase_new in E. case_match; [done|]. by injection E as <-. }
  pose proof (recriarHistorico_validos (d_historicoManutencao d)) as Hv.
  pose proof (recriarHistorico_custo (d_historicoManutencao d)) as Hcu.
  destruct (decide (d_tipoVeiculo d = JStr "CarroEsportivo")) as [He|He];
    [|destruct (decide (d_tipoVeiculo d = JStr "Caminhao")) as [Hc|Hc]];
    simpl; intros [= <-]; unfold set_turboAtivado, set_cargaAtual; simpl;
    rewrite ?Hc0; simpl; (split; [destruct Hbf; by split|done]).
Qed.

Lemma recriarVeiculo_garante_witness :
  ∃ v, recriarVeiculo entrada_desligada_a_50 = Some v
       ∧ velocidade v = 50 ∧ ligado v = false ∧ classe v = CarroBase.
Proof.
  eexists. split; [reflexivity|].
  destruct (recriarVeiculo_garante entrada_desligada_a_50 _ eq_refl)
    as (_ & _ & Hv & Hl & Hc).
  split; [exact Hv|]. split; [exact Hl|exact Hc].
Defined.

Lemma carregarGaragem_TextoJSON (w : Mundo) (doc : gmap string VeiculoJSON) :
  localStorage w = Some (TextoJSON doc) →
  carregarGaragem w = set_garagem (omap recriarVeiculo doc) w.
Proof. intros H. unfold carregarGaragem. by rewrite H. Qed.

(** An entry of the stored object that lacks [id], [modelo] or
    [tipoVeiculo] is skipped and does not stop the load: the garage is the
    one the stored object without that entry would give. *)
Theorem entrada_incompleta_ignorada (w : Mundo) (doc : gmap string VeiculoJSON)
    (k : string) (d : VeiculoJSON) :
  localStorage w = Some (TextoJSON doc) →
  doc !! k = Some d →
  truthy (d_id d) = false ∨ truthy (d_modelo d) = false ∨ truthy (d_tipoVeiculo d) = false →
  garagem (carregarGaragem w) !! k = None
  ∧ garagem (carregarGaragem w)
    = garagem (carregarGaragem (set_localStorage (Some (TextoJSON (delete k doc))) w)).
Proof.
  intros Hs Hk Hd.
  assert (recriarVeiculo d = None) as Hr.
  { unfold recriarVeiculo. destruct Hd as [-> | [-> | ->]]; simpl; by rewrite ?orb_true_r. }
  rewrite (carregarGaragem_TextoJSON w doc Hs).
  rewrite (carregarGaragem_TextoJSON
             (set_localStorage (Some (TextoJSON (delete k doc))) w) (delete k doc) eq_refl).
  simpl.
  split.
  - by rewrite lookup_omap, Hk.
  - apply map_eq. intros k'. rewrite !lookup_omap.
    destruct (decide (k' = k)) as [->|Hne].
    + by rewrite lookup_delete_eq, Hk.
    + by rewrite lookup_delete_ne.
Qed.

Lemma entrada_incompleta_ignorada_witness :
  let d := {| d_id := JStr ""; d_modelo := JStr "Fusca"; d_cor := JStr "Azul";
              d_placa := JStr "ABC1234"; d_ano := JNum 1975; d_dataVencimentoCNH := DNull;
              d_velocidade := Some 0; d_ligado := Some false;
              d_imagemSrc := JStr "default_car.png"; d_tipoVeiculo := JStr "CarroBase";
              d_historicoManutencao := Some []; d_turboAtivado := None;
              d_capacidadeCarga := JUndefined; d_cargaAtual := None |} in
  let w := {| garagem := ∅;
              localStorage := Some (TextoJSON (<["x":=d]> {["carro1" := toJSON fusca]}));
              setItem_lanca := λ _, None; alertas := [] |} in
  garagem (carregarGaragem w) !! "x" = None
  ∧ garagem (carregarGaragem w) !! "carro1" = Some fusca.
Proof.
  intros d w.
  destruct (entrada_incompleta_ignorada w _ "x" d eq_refl (lookup_insert_eq _ _ _)
              (or_introl eq_refl)) as [H1 H2].
  split; [exact H1|]. rewrite H2. reflexivity.
Defined.

(** A stored object without entries loads as an empty garage: nothing is
    seeded, nothing is written, nothing is alerted.  Only a missing item
    (or an unreadable one) brings the seeded fleet. *)
Theorem carregar_objeto_vazio (w : Mundo) :
  localStorage w = Some (TextoJSON ∅) →
  carregarGaragem w = set_garagem ∅ w
  ∧ garagem (carregarGaragem (removeItem w)) = frota_padrao.
Proof.
  intros H. split.
  - rewrite (carregarGaragem_TextoJSON w ∅ H). by rewrite omap_empty.
  - unfold carregarGaragem. simpl. apply inicializarVeiculosPadrao_garagem.
Qed.

Lemma carregar_objeto_vazio_witness :
  garagem (carregarGaragem (set_localStorage (Some (TextoJSON ∅)) mundo_fusca)) = ∅.
Proof.
  by rewrite (proj1 (carregar_objeto_vazio
                       (set_localStorage (Some (TextoJSON ∅)) mundo_fusca) eq_refl)).
Defined.

Lemma salvarGaragem_sucesso (w : Mundo) :
  setItem_lanca w (JSON_stringify_garagem (garagem w)) = None →
  salvarGaragem w
  = (set_localStorage (Some (TextoJSON (JSON_stringify_garagem (garagem w)))) w, true).
Proof. intros H. unfold salvarGaragem. by rewrite H. Qed.

Lemma salvarGaragem_setItem_lanca (w : Mundo) :
  setItem_lanca (fst (salvarGaragem w)) = setItem_lanca w.
Proof. unfold salvarGaragem. by repeat case_match. Qed.

Lemma adicionarManutencao_setItem_lanca k a (w : Mundo) :
  setItem_lanca (fst (adicionarManutencao k a w)) = setItem_lanca w.
Proof.
  unfold adicionarManutencao. repeat case_match; simpl; try done.
  by rewrite salvarGaragem_setItem_lanca.
Qed.

Lemma frota_padrao_recarregada :
  omap recriarVeiculo (JSON_stringify_garagem frota_padrao) = frota_padrao.
Proof. vm_compute. reflexivity. Qed.

(** A first start finds no stored item and seeds the fleet; when the
    storage takes the seeded garage, the next start loads that same fleet
    back from it. *)
Theorem primeira_e_segunda_carga (w : Mundo) :
  localStorage w = None →
  setItem_lanca w (JSON_stringify_garagem frota_padrao) = None →
  garagem (carregarGaragem w) = frota_padrao
  ∧ localStorage (carregarGaragem w) = Some (TextoJSON (JSON_stringify_garagem frota_padrao))
  ∧ garagem (carregarGaragem (carregarGaragem w)) = frota_padrao.
Proof.
  intros Hn Hs.
  assert (localStorage (carregarGaragem w)
          = Some (TextoJSON (JSON_stringify_garagem frota_padrao))) as Hl.
  { unfold carregarGaragem. rewrite Hn. unfold inicializarVeiculosPadrao.
    change seed_carro1 with (Some fusca).
    change seed_carro2 with (Some maverick_padrao).
    change seed_cam1 with (Some (set_historicoManutencao [] scania_padrao)).
    cbv beta iota zeta.
    match goal with |- localStorage (fst (salvarGaragem ?w3)) = _ => set (w3' := w3) end.
    assert (garagem w3' = frota_padrao) as Hg.
    { unfold w3'. rewrite !adicionarManutencao_garagem. simpl garagem.
      vm_compute. reflexivity. }
    rewrite salvarGaragem_sucesso.
    - simpl. by rewrite Hg.
    - rewrite Hg. unfold w3'. by rewrite !adicionarManutencao_setItem_lanca. }
  split; [|split; [done|]].
  - unfold carregarGaragem. rewrite Hn. apply inicializarVeiculosPadrao_garagem.
  - rewrite (carregarGaragem_TextoJSON _ _ Hl). simpl. apply frota_padrao_recarregada.
Qed.

Lemma primeira_e_segunda_carga_witness :
  garagem (carregarGaragem (carregarGaragem (removeItem mundo_fusca))) = frota_padrao.
Proof.
  exact (proj2 (proj2 (primeira_e_segunda_carga (removeItem mundo_fusca) eq_refl eq_refl))).
Defined.

(** ** The handlers of the forms *)

(** [handleAdicionarVeiculo] never changes or removes a vehicle already in
    the garage under another identifier, whichever way it ends; a form
    whose model is blank or whose type is empty changes neither the garage
    nor the stored item. *)
Theorem handleAdicionarVeiculo_preserva (agora : Z) (form : FormAdicionar) (w : Mundo)
    (k : string) :
  k ≠ novo_id agora →
  garagem (handleAdicionarVeiculo agora form w) !! k = garagem w !! k
  ∧ (trim (add_modelo form) = "" ∨ add_tipo form = "" →
     garagem (handleAdicionarVeiculo agora form w) = garagem w
     ∧ localStorage (handleAdicionarVeiculo agora form w) = localStorage w).
Proof.
  intros Hk. unfold handleAdicionarVeiculo. split.
  - case_match; [done|]. destruct (novoVeiculo agora form) as [nV|]; simpl.
    + set (w1 := set_garagem _ w). pose proof (salvarGaragem_garagem w1) as Hg.
      destruct (salvarGaragem w1) as [w2 ok]. simpl in Hg.
      destruct ok; simpl; rewrite Hg; unfold w1; simpl.
      * by rewrite lookup_insert_ne.
      * rewrite lookup_delete_ne by done. by rewrite lookup_insert_ne.
    + by rewrite lookup_delete_ne.
  - intros [Hm|Ht].
    + rewrite Hm. simpl. done.
    + rewrite Ht. simpl. by rewrite orb_true_r.
Qed.

Lemma handleAdicionarVeiculo_preserva_witness :
  garagem (handleAdicionarVeiculo instante_exemplo form_scania mundo_fusca) !! "carro1"
  = Some fusca.
Proof.
  exact (proj1 (handleAdicionarVeiculo_preserva instante_exemplo form_scania mundo_fusca
                  "carro1" ltac:(discriminate))).
Defined.




(** The vehicle the garage holds after [handleSalvarEdicaoVeiculo]: the
    one it held when the handler refuses the edit, otherwise the one with
    the fields of the form written, and with the new image or the old
    one. *)
Lemma handleSalvarEdicaoVeiculo_veiculo (k : string) (display : Display) (form : FormEdicao)
    (w : Mundo) (v0 : Veiculo) :
  garagem w !! k = Some v0 →
  ∃ v', garagem (handleSalvarEdicaoVeiculo k display form w) = <[k:=v']> (garagem w)
        ∧ (v' = v0
           ∨ ∃ img, v' = set_imagemSrc img (fst (aplicarCampos form v0))
                    ∧ (img = imagemSrc v0
                       ∨ ∃ file b, edit_imagem form = Some file ∧ leitura file = Some b
                                   ∧ img = JStr b)).
Proof.
  intros Hk. unfold handleSalvarEdicaoVeiculo. rewrite Hk.
  destruct (display_mostra display (id v0)); cbn [negb];
    [|exists v0; split; [by rewrite insert_id|by left]].
  pose proof (aplicarCampos_imagemSrc form v0) as Himg.
  destruct (aplicarCampos form v0) as [v mudou]. simpl in *.
  assert (set_imagemSrc (imagemSrc v0) v = v) as Hid
    by (rewrite <- Himg; by destruct v).
  assert (∀ g : gmap string Veiculo, g = <[k:=v]> (garagem w) →
            ∃ v', g = <[k:=v']> (garagem w)
                  ∧ (v' = v0
                     ∨ ∃ img, v' = set_imagemSrc img v
                              ∧ (img = imagemSrc v0
                                 ∨ ∃ file b, edit_imagem form = Some file
                                             ∧ leitura file = Some b ∧ img = JStr b)))
    as Hmesma.
  { intros g ->. exists v. split; [done|]. right. exists (imagemSrc v0).
    split; [by rewrite Hid|by left]. }
  destruct (edit_imagem form) as [file|] eqn:Ef.
  - destruct (String.prefix "image/" (file_type file)).
    + destruct (leitura file) as [b|] eqn:El.
      * case_bool_decide.
        -- set (w1 := set_garagem _ _). pose proof (salvarGaragem_garagem w1) as Hg.
           destruct (salvarGaragem w1) as [w2 ok]. simpl in Hg.
           destruct ok; simpl; rewrite Hg; unfold w1; simpl; rewrite !insert_insert_eq.
           ++ eexists. split; [done|]. right. exists (JStr b). split; [done|].
              right. by exists file, b.
           ++ apply Hmesma. by rewrite set_imagemSrc_desfeito.
        -- apply Hmesma. destruct mudou; simpl; by rewrite ?salvarGaragem_garagem.
      * by apply Hmesma.
    + apply Hmesma. destruct mudou; simpl; [|done].
      pose proof (salvarGaragem_garagem (set_garagem (<[k:=v]> (garagem w)) w)) as Hg.
      destruct (salvarGaragem _) as [w1 ok]. simpl in Hg. by destruct ok.
  - apply Hmesma. destruct mudou; simpl; [|done].
    pose proof (salvarGaragem_garagem (set_garagem (<[k:=v]> (garagem w)) w)) as Hg.
    destruct (salvarGaragem _) as [w1 ok]. simpl in Hg. by destruct ok.
Qed.

Lemma aplicarCampos_preserva (form : FormEdicao) (v : Veiculo) :
  let v' := fst (aplicarCampos form v) in
  id v' = id v ∧ velocidade v' = velocidade v ∧ ligado v' = ligado v
  ∧ historicoManutencao v' = historicoManutencao v ∧ classe v' = classe v.
Proof. unfold aplicarCampos. repeat case_match; simplify_eq/=; done. Qed.

(** An edit never touches the identity, the speed, the running flag, the
    history or the class of the vehicle, nor any other vehicle of the
    garage, whichever path the handler takes and whatever the display area
    shows. *)
Theorem handleSalvarEdicaoVeiculo_preserva (k : string) (display : Display)
    (form : FormEdicao) (w : Mundo) :
  (∀ k', k' ≠ k →
     garagem (handleSalvarEdicaoVeiculo k display form w) !! k' = garagem w !! k')
  ∧ (∀ v0, garagem w !! k = Some v0 →
       ∃ v', garagem (handleSalvarEdicaoVeiculo k display form w) !! k = Some v'
             ∧ id v' = id v0 ∧ velocidade v' = velocidade v0 ∧ ligado v' = ligado v0
             ∧ historicoManutencao v' = historicoManutencao v0 ∧ classe v' = classe v0).
Proof.
  split.
  - intros k' Hk'. destruct (garagem w !! k) as [v0|] eqn:Hk.
    + destruct (handleSalvarEdicaoVeiculo_veiculo k display form w v0 Hk) as (v' & -> & _).
      by rewrite lookup_insert_ne.
    + unfold handleSalvarEdicaoVeiculo. by rewrite Hk.
  - intros v0 Hk.
    destruct (handleSalvarEdicaoVeiculo_veiculo k display form w v0 Hk)
      as (v' & -> & [-> | (img & -> & _)]);
      eexists; rewrite lookup_insert_eq; (split; [done|]); [done|]. simpl.
    apply (aplicarCampos_preserva form v0).
Qed.



Lemma aplicarCampos_modelo (form : FormEdicao) (v : Veiculo) :
  modelo (fst (aplicarCampos form v))
  = (if String.eqb (trim (edit_modelo form)) "" then modelo v else trim (edit_modelo form)).
Proof.
  unfold aplicarCampos.
  destruct (String.eqb_spec (trim (edit_modelo form)) "") as [E|E];
    destruct (String.eqb_spec (modelo v) (trim (edit_modelo form))) as [E'|E'];
    simpl; repeat case_match; simplify_eq/=; done.
Qed.

(** An edit cannot empty the model: a blank model in the form keeps the
    old one, so a vehicle whose model is not empty keeps a model that is
    not empty. *)
Theorem edicao_mantem_modelo (k : string) (display : Display) (form : FormEdicao)
    (w : Mundo) (v0 : Veiculo) :
  garagem w !! k = Some v0 →
  modelo v0 ≠ "" →
  ∃ v', garagem (handleSalvarEdicaoVeiculo k display form w) !! k = Some v'
        ∧ modelo v' ≠ ""
        ∧ (trim (edit_modelo form) = "" → modelo v' = modelo v0).
Proof.
  intros Hk Hm.
  destruct (handleSalvarEdicaoVeiculo_veiculo k display form w v0 Hk)
    as (v' & -> & [-> | (img & -> & _)]);
    eexists; rewrite lookup_insert_eq; (split; [done|]); [done|]. simpl.
  rewrite aplicarCampos_modelo.
  destruct (String.eqb_spec (trim (edit_modelo form)) ""); split; done.
Qed.

Lemma edicao_mantem_modelo_witness :
  let form := {| edit_modelo := "   "; edit_cor := "Verde"; edit_placa := "ABC1234";
                 edit_ano := "1975"; edit_cnh := "2024-12-31"; edit_imagem := None |} in
  ∃ v', garagem (handleSalvarEdicaoVeiculo "carro1" (Some (Some "carro1")) form mundo_fusca)
          !! "carro1" = Some v'
        ∧ modelo v' = "Fusca".
Proof.
  intros form.
  destruct (edicao_mantem_modelo "carro1" (Some (Some "carro1")) form mundo_fusca fusca
              eq_refl ltac:(discriminate))
    as (v' & Hv' & _ & Hm).
  exists v'. split; [exact Hv'|]. exact (Hm eq_refl).
Defined.

(** An edit form of the vehicle on display that repeats what the vehicle
    already holds (a blank model counts as such) and brings no image writes
    nothing: garage and stored item stay as they are and the handler only
    reports that nothing changed. *)
Theorem edicao_sem_mudancas (k : string) (display : Display) (form : FormEdicao)
    (w : Mundo) (v0 : Veiculo) :
  garagem w !! k = Some v0 →
  display_mostra display (id v0) = true →
  edit_imagem form = None →
  texto_ascii (edit_placa form) = true →
  trim (edit_modelo form) = "" ∨ trim (edit_modelo form) = modelo v0 →
  trim (edit_cor form) = cor v0 →
  toUpperCase (trim (edit_placa form)) = placa v0 →
  parseInt_or_null (JStr (edit_ano form)) = ano v0 →
  (if String.eqb (edit_cnh form) "" then None
   else Date_parse (edit_cnh form +:+ "T00:00:00Z")) = dataVencimentoCNH v0 →
  garagem (handleSalvarEdicaoVeiculo k display form w) = garagem w
  ∧ localStorage (handleSalvarEdicaoVeiculo k display form w) = localStorage w
  ∧ alertas (handleSalvarEdicaoVeiculo k display form w) = NenhumaAlteracao :: alertas w.
Proof.
  intros Hk Hd Hi _ Hmod Hcor Hpla Hano Hcnh.
  assert (aplicarCampos form v0 = (v0, false)) as Hap.
  { unfold aplicarCampos. cbv zeta. rewrite Hcor, Hpla, Hano, Hcnh.
    assert (negb (String.eqb (trim (edit_modelo form)) "")
            && negb (String.eqb (modelo v0) (trim (edit_modelo form))) = false) as ->.
    { destruct Hmod as [-> | ->]; [done|]. by rewrite String.eqb_refl, andb_false_r. }
    repeat first
      [ rewrite String.eqb_refl; cbn [negb]
      | rewrite bool_decide_eq_false_2 by (intros H; by apply H) ].
    done. }
  unfold handleSalvarEdicaoVeiculo. rewrite Hk, (negb_display_mostra _ _ Hd), Hap, Hi. simpl.
  by rewrite insert_id.
Qed.

Lemma edicao_sem_mudancas_witness :
  let form := {| edit_modelo := "Fusca"; edit_cor := "Azul"; edit_placa := "abc1234";
                 edit_ano := "1975"; edit_cnh := "2024-12-31"; edit_imagem := None |} in
  garagem (handleSalvarEdicaoVeiculo "carro1" (Some (Some "carro1")) form mundo_fusca)
  = garagem mundo_fusca
  ∧ localStorage (handleSalvarEdicaoVeiculo "carro1" (Some (Some "carro1")) form mundo_fusca)
    = None.
Proof.
  intros form.
  destruct (edicao_sem_mudancas "carro1" (Some (Some "carro1")) form mundo_fusca fusca
              eq_refl eq_refl eq_refl eq_refl
              (or_intror eq_refl) eq_refl eq_refl eq_refl eq_refl) as (Hg & Hs & _).
  split; [exact Hg | exact Hs].
Defined.

(** The handler refuses the edit, with the alert of an internal error and
    nothing else, when the garage holds no vehicle under the identifier,
    when the page has no display area, or when the display area shows
    another identifier than the one the vehicle carries. *)
Theorem edicao_recusada (k : string) (display : Display) (form : FormEdicao) (w : Mundo) :
  garagem w !! k = None
  ∨ (∃ v0, garagem w !! k = Some v0 ∧ display_mostra display (id v0) = false) →
  handleSalvarEdicaoVeiculo k display form w = alert ErroInternoEdicao w.
Proof.
  unfold handleSalvarEdicaoVeiculo. intros [-> | (v0 & -> & ->)]; done.
Qed.

Lemma edicao_recusada_witness :
  garagem (handleSalvarEdicaoVeiculo "carro1" (Some (Some "carro2")) form_edicao_fusca
             mundo_fusca) = garagem mundo_fusca
  ∧ alertas (handleSalvarEdicaoVeiculo "carro1" (Some (Some "carro2")) form_edicao_fusca
               mundo_fusca) = [ErroInternoEdicao].
Proof.
  rewrite (edicao_recusada "carro1" (Some (Some "carro2")) form_edicao_fusca mundo_fusca);
    [done|].
  right. exists fusca. split; reflexivity.
Defined.

(** A confirmed [handleExcluirVeiculo] removes the vehicle from the garage
    in memory whatever the save does.  When the save succeeds the stored
    item is the garage without it; when the save fails the stored item is
    the old one, the handler reports the grave error, and the next
    [carregarGaragem] loads what a load before the removal would have. *)
Theorem handleExcluirVeiculo_confirmado (k : string) (v : Veiculo) (w : Mundo) :
  garagem w !! k = Some v →
  let r := handleExcluirVeiculo k true w in
  let doc := JSON_stringify_garagem (delete k (garagem w)) in
  garagem (fst r) = delete k (garagem w)
  ∧ (setItem_lanca w doc = None →
     localStorage (fst r) = Some (TextoJSON doc) ∧ snd r = [ExcluidoComSucesso (modelo v)])
  ∧ (setItem_lanca w doc ≠ None →
     localStorage (fst r) = localStorage w
     ∧ snd r = [ErroGraveExclusao]
     ∧ garagem (carregarGaragem (fst r)) = garagem (carregarGaragem w)).
Proof.
  intros Hk r doc. unfold r, handleExcluirVeiculo. rewrite Hk.
  set (w1 := set_garagem (delete k (garagem w)) w).
  pose proof (salvarGaragem_garagem w1) as Hg.
  split; [|split].
  - destruct (salvarGaragem w1) as [w2 ok]. simpl in Hg. by destruct ok.
  - intros Hs. by rewrite (salvarGaragem_sucesso w1 Hs).
  - intros Hs. destruct (setItem_lanca w doc) as [e|] eqn:E; [|done].
    destruct (salvarGaragem_falha w1 e E) as (Hok & _ & Hl).
    destruct (salvarGaragem w1) as [w2 ok]. simpl in *. subst ok. simpl.
    split; [done|]. split; [done|]. by apply carregarGaragem_garagem_localStorage.
Qed.

Lemma handleExcluirVeiculo_confirmado_witness :
  garagem (fst (handleExcluirVeiculo "carro1" true mundo_cheio)) = ∅
  ∧ snd (handleExcluirVeiculo "carro1" true mundo_cheio) = [ErroGraveExclusao].
Proof.
  destruct (handleExcluirVeiculo_confirmado "carro1" fusca mundo_cheio eq_refl)
    as (Hg & _ & Hf).
  split.
  - rewrite Hg. apply delete_singleton_eq.
  - exact (proj1 (proj2 (Hf ltac:(discriminate)))).
Defined.

(** ** Licence alerts over the days *)

Lemma Math_ceil_div_mono x y d : 0 < d → x ≤ y → Math_ceil_div x d ≤ Math_ceil_div y d.
Proof.
  intros Hd Hxy. unfold Math_ceil_div.
  pose proof (Z.div_le_mono (- y) (- x) d Hd ltac:(lia)). lia.
Qed.

Lemma Math_ceil_div_menos_um x d : 0 < d → Math_ceil_div (x - d) d = Math_ceil_div x d - 1.
Proof.
  intros Hd. unfold Math_ceil_div.
  replace (- (x - d)) with (- x + 1 * d) by lia. rewrite Z.div_add by lia. lia.
Qed.

Lemma verificarVencimentoCNH_lookup hj (g : gmap string Veiculo) k :
  verificarVencimentoCNH hj g !! k = g !! k ≫= alertaCNH hj.
Proof. unfold verificarVencimentoCNH. by rewrite lookup_omap. Qed.

(** A licence reported as expired stays reported as expired on every later
    day, and a vehicle that raises an alert is in the garage and has a
    licence date. *)
Theorem cnh_vencida_permanece (hj hj' : Z) (g : gmap string Veiculo) (k : string) :
  hj ≤ hj' →
  verificarVencimentoCNH hj g !! k = Some Vencida →
  verificarVencimentoCNH hj' g !! k = Some Vencida
  ∧ ∃ v dtV, g !! k = Some v ∧ dataVencimentoCNH v = Some dtV ∧ dtV < hj.
Proof.
  intros Hle. rewrite !verificarVencimentoCNH_lookup.
  destruct (g !! k) as [v|]; simpl; [|done]. unfold alertaCNH.
  destruct (dataVencimentoCNH v) as [dtV|] eqn:Ed; [|done].
  pose proof (Math_ceil_div_mono (dtV - hj') (dtV - hj) MS_POR_DIA MS_POR_DIA_pos ltac:(lia)).
  pose proof (Math_ceil_div_spec (dtV - hj) MS_POR_DIA MS_POR_DIA_pos) as Hspec.
  destruct (Z.ltb_spec (Math_ceil_div (dtV - hj) MS_POR_DIA) 0) as [Hlt|Hge].
  - intros _. rewrite (proj2 (Z.ltb_lt _ _)) by lia. split; [done|].
    exists v, dtV. split; [done|]. split; [done|].
    pose proof MS_POR_DIA_pos. nia.
  - by case_match.
Qed.

Lemma cnh_vencida_permanece_witness :
  verificarVencimentoCNH (1735603200000 + 400 * MS_POR_DIA) {["carro1" := fusca]} !! "carro1"
  = Some Vencida.
Proof.
  refine (proj1 (cnh_vencida_permanece (1735603200000 + 1 * MS_POR_DIA)
                   (1735603200000 + 400 * MS_POR_DIA) {["carro1" := fusca]} "carro1" _ _)).
  - vm_compute. discriminate.
  - reflexivity.
Defined.

(** The count of days goes down by one a day: a licence that expires in
    [d] days today expires in [d - 1] days tomorrow, and one that expires
    in 0 days today is expired tomorrow. *)
Theorem cnh_contagem_regressiva (hj d : Z) (g : gmap string Veiculo) (k : string) :
  verificarVencimentoCNH hj g !! k = Some (VenceEm d) →
  verificarVencimentoCNH (hj + MS_POR_DIA) g !! k
  = Some (if d =? 0 then Vencida else VenceEm (d - 1)).
Proof.
  rewrite !verificarVencimentoCNH_lookup.
  destruct (g !! k) as [v|]; simpl; [|done]. unfold alertaCNH.
  destruct (dataVencimentoCNH v) as [dtV|]; [|done].
  replace (dtV - (hj + MS_POR_DIA)) with (dtV - hj - MS_POR_DIA) by lia.
  rewrite (Math_ceil_div_menos_um _ _ MS_POR_DIA_pos).
  set (dias := Math_ceil_div (dtV - hj) MS_POR_DIA).
  destruct (Z.ltb_spec dias 0); [done|].
  destruct (Z.leb_spec dias 30); [|done]. intros [= <-].
  destruct (Z.eqb_spec dias 0) as [->|Hne]; [done|].
  rewrite (proj2 (Z.ltb_ge _ _)) by lia. by rewrite (proj2 (Z.leb_le _ _)) by lia.
Qed.

Lemma cnh_contagem_regressiva_witness :
  verificarVencimentoCNH (1735603200000 - 30 * MS_POR_DIA + MS_POR_DIA)
    {["carro1" := fusca]} !! "carro1" = Some (VenceEm 29).
Proof.
  exact (cnh_contagem_regressiva (1735603200000 - 30 * MS_POR_DIA) 30
           {["carro1" := fusca]} "carro1" eq_refl).
Defined.

(** ** The list of future appointments *)

Section OrdemCrescente.

Context {A : Type} (chave : A → Z).

Lemma inserir_crescente_Permutation x l :
  Permutation (inserir (λ a b, chave a - chave b) x l) (x :: l).
Proof.
  induction l as [|y r IH]; simpl; [done|].
  destruct (chave x - chave y <=? 0); [done|]. rewrite IH. apply perm_swap.
Qed.

Lemma sort_crescente_Permutation l :
  Permutation (sort (λ a b, chave a - chave b) l) l.
Proof.
  induction l as [|x r IH]; simpl; [done|].
  by rewrite inserir_crescente_Permutation, IH.
Qed.

Lemma inserir_crescente_Sorted x l :
  StronglySorted (λ a b, chave a ≤ chave b) l →
  StronglySorted (λ a b, chave a ≤ chave b) (inserir (λ a b, chave a - chave b) x l).
Proof.
  induction 1 as [|y r Hr IH Hy]; simpl; [by repeat constructor|].
  destruct (Z.leb_spec (chave x - chave y) 0) as [Hle|Hgt].
  - constructor; [by constructor|]. constructor; [lia|].
    eapply Forall_impl; [exact Hy|]. intros z. simpl. lia.
  - constructor; [done|]. rewrite inserir_crescente_Permutation.
    constructor; [lia|done].
Qed.

Lemma sort_crescente_Sorted l :
  StronglySorted (λ a b, chave a ≤ chave b) (sort (λ a b, chave a - chave b) l).
Proof. induction l as [|x r IH]; simpl; [constructor|]. by apply inserir_crescente_Sorted. Qed.

End OrdemCrescente.

Lemma agendamentosDoVeiculo_elem agora v m modl :
  (m, modl) ∈ agendamentosDoVeiculo agora v
  ↔ modl = modelo v ∧ m ∈ historicoManutencao v ∧ ∃ t, data m = Some t ∧ agora < t.
Proof.
  unfold agendamentosDoVeiculo. rewrite list_elem_of_fmap. split.
  - intros (m' & [= -> ->] & Hm). apply list_elem_of_In, filter_In in Hm as [Hm Hp].
    split; [done|]. split; [by apply list_elem_of_In|].
    unfold data_valida, tempo_ou_zero in Hp. destruct (data m') as [t|]; [|done].
    exists t. split; [done|]. simpl in Hp. lia.
  - intros (-> & Hm & t & Ht & Hlt). exists m. split; [done|].
    apply list_elem_of_In, filter_In. split; [by apply list_elem_of_In|].
    unfold data_valida, tempo_ou_zero. rewrite Ht. simpl. lia.
Qed.

(** The list of future appointments holds, for every vehicle, exactly its
    records with a valid date after now, each with the model of its
    vehicle, and lists them by date, nearest first; records of the past or
    without a valid date never appear. *)
Theorem agendamentos_futuros_ordenados (agora : Z) (veiculos : list Veiculo) :
  let tds := atualizarExibicaoAgendamentosFuturos agora veiculos in
  StronglySorted (λ a b, tempo_ou_zero a.1 ≤ tempo_ou_zero b.1) tds
  ∧ Permutation tds (veiculos ≫= agendamentosDoVeiculo agora)
  ∧ (∀ m modl, (m, modl) ∈ tds
               ↔ ∃ v, v ∈ veiculos ∧ modl = modelo v ∧ m ∈ historicoManutencao v
                      ∧ ∃ t, data m = Some t ∧ agora < t).
Proof.
  intros tds. unfold tds, atualizarExibicaoAgendamentosFuturos.
  split; [apply (sort_crescente_Sorted (λ a, tempo_ou_zero a.1))|].
  split; [apply (sort_crescente_Permutation (λ a, tempo_ou_zero a.1))|].
  intros m modl.
  rewrite (sort_crescente_Permutation (λ a : Manutencao * string, tempo_ou_zero a.1)).
  rewrite list_elem_of_bind. split.
  - intros (v & Hin & Hv). apply agendamentosDoVeiculo_elem in Hin. exists v. tauto.
  - intros (v & Hv & Hrest). exists v. split; [|done].
    apply agendamentosDoVeiculo_elem. tauto.
Qed.

(** ** What the page shows *)

(** After [atualizarInterfaceCompleta] the display area shows a vehicle of
    the garage, and is cleared only when the garage is empty; a vehicle
    that was shown and is still in the garage stays shown. *)
Theorem atualizarInterfaceCompleta_exibe (veiculosIds : list string)
    (idVeiculoAtual : option string) (g : gmap string Veiculo) :
  (∀ k, k ∈ veiculosIds ↔ is_Some (g !! k)) →
  match atualizarInterfaceCompleta veiculosIds idVeiculoAtual g with
  | Some k => is_Some (g !! k)
  | None => g = ∅
  end
  ∧ (∀ atual, idVeiculoAtual = Some atual → atual ≠ "" → is_Some (g !! atual) →
       atualizarInterfaceCompleta veiculosIds idVeiculoAtual g = Some atual).
Proof.
  intros Hids. unfold atualizarInterfaceCompleta. split.
  - destruct veiculosIds as [|primeiroId r].
    + apply map_eq. intros k. rewrite lookup_empty. apply eq_None_not_Some.
      rewrite <- Hids. apply not_elem_of_nil.
    + assert (is_Some (g !! primeiroId)) as [v Hv] by (apply Hids; by left).
      rewrite Hv. destruct idVeiculoAtual as [atual|]; [|by eexists].
      destruct (negb (String.eqb atual "")); simpl; [|by eexists].
      case_bool_decide; [done|by eexists].
  - intros atual -> Hne Ha. destruct veiculosIds as [|primeiroId r].
    + apply Hids in Ha. by apply elem_of_nil in Ha.
    + rewrite (eqb_vazio_false _ Hne). simpl. by rewrite bool_decide_eq_true_2.
Qed.

Lemma atualizarInterfaceCompleta_exibe_witness :
  atualizarInterfaceCompleta ["carro1"] (Some "carro9") (garagem mundo_fusca) = Some "carro1"
  ∧ is_Some (garagem mundo_fusca !! "carro1").
Proof.
  split; [reflexivity|].
  refine (proj1 (atualizarInterfaceCompleta_exibe ["carro1"] (Some "carro9")
                   (garagem mundo_fusca) _)).
  intros k. change (garagem mundo_fusca) with ({["carro1" := fusca]} : gmap string Veiculo).
  split.
  - intros Hk. apply list_elem_of_In in Hk. simpl in Hk. destruct Hk as [<-|[]].
    by eexists.
  - intros [v Hv]. apply lookup_singleton_Some in Hv as [<- _]. by left.
Defined.

(** ** Actions by name *)

(** Through [interagir] the actions of a subclass reach only that subclass:
    [ativarTurbo] on a vehicle that is no [CarroEsportivo] and [carregar] on
    one that is no [Caminhao] leave the world as it is and only notify,
    whatever the methods of the subclasses do; a name the [switch] does not
    know changes nothing at all. *)
Theorem interagirPorNome_guardas
    (ativarTurbo : Veiculo → Veiculo * list Aviso)
    (carregar : JsVal → Veiculo → Veiculo * list Aviso)
    (k acao : string) (arg : JsVal) (w : Mundo) (v : Veiculo) :
  garagem w !! k = Some v →
  ((∀ t, classe v ≠ CarroEsportivo t) →
   interagirPorNome ativarTurbo carregar k "ativarTurbo" arg w
   = (w, [TurboApenasEsportivos (modelo v)]))
  ∧ ((∀ cap carga, classe v ≠ Caminhao cap carga) →
     interagirPorNome ativarTurbo carregar k "carregar" arg w
     = (w, [CarregarApenasCaminhoes (modelo v)]))
  ∧ (acao ∉ ["ligar"; "desligar"; "acelerar"; "frear"; "buzinar"; "ativarTurbo"; "carregar"] →
     interagirPorNome ativarTurbo carregar k acao arg w = (w, [])).
Proof.
  intros Hk. unfold interagirPorNome. rewrite Hk. split; [|split].
  - intros Hc. simpl. destruct (classe v) as [|t|cap carga]; [done| |done].
    by destruct (Hc t).
  - intros Hc. simpl. destruct (classe v) as [|t|cap carga]; [done|done|].
    by destruct (Hc cap carga).
  - intros Hn.
    repeat (apply not_elem_of_cons in Hn as [?%String.eqb_neq Hn]).
    by repeat match goal with H : String.eqb _ _ = false |- _ => rewrite H; clear H end.
Qed.

Lemma interagirPorNome_guardas_witness :
  interagirPorNome (λ v, (v, [])) (λ _ v, (v, [])) "carro1" "ativarTurbo" JUndefined mundo_fusca
  = (mundo_fusca, [TurboApenasEsportivos "Fusca"]).
Proof.
  refine (proj1 (interagirPorNome_guardas (λ v, (v, [])) (λ _ v, (v, [])) "carro1" ""
                   JUndefined mundo_fusca fusca eq_refl) _).
  intros t. discriminate.
Defined.

(** ** The constructor and the edit keep the shape of a vehicle *)

(** [new CarroBase(..)] throws exactly when [id] or [modelo] is falsy.
    Otherwise the vehicle is off, at rest and without history; its model
    and colour are trimmed, its plate is trimmed and in upper case, its
    year is an integer other than 0 or [null], its image is never empty,
    and a colour or an image that is missing takes the default. *)
Theorem CarroBase_new_normaliza (i m c img p a : JsVal) (cnh : JsData) :
  (CarroBase_new i m c img p a cnh = None ↔ truthy i = false ∨ truthy m = false)
  ∧ ∀ v, CarroBase_new i m c img p a cnh = Some v →
         bem_formado v
         ∧ velocidade v = 0 ∧ ligado v = false ∧ historicoManutencao v = []
         ∧ classe v = CarroBase
         ∧ (truthy c = false → cor v = "Cor Padrão")
         ∧ (truthy img = false → imagemSrc v = JStr "default_car.png").
Proof.
  split.
  - unfold CarroBase_new. destruct (truthy i), (truthy m); simpl; split; intros H;
      try done; try (by destruct H); auto.
  - intros v Hv. split; [by eapply CarroBase_new_bem_formado|].
    unfold CarroBase_new in Hv. case_match; [done|]. injection Hv as <-. simpl.
    repeat split; unfold js_or; by intros ->.
Qed.

Lemma handleSalvarEdicaoVeiculo_bem_formado_aux (img : JsVal) (v : Veiculo) :
  bem_formado v → truthy img = true → bem_formado (set_imagemSrc img v).
Proof. intros [] Hi. by split. Qed.

(** An edit keeps the shape the constructor gave the vehicle: trimmed
    texts, a trimmed upper-case plate, a year other than 0, a truthy image
    (the data URL of a file that was read is never empty). *)
Theorem edicao_mantem_forma (k : string) (display : Display) (form : FormEdicao)
    (w : Mundo) (v0 : Veiculo) :
  garagem w !! k = Some v0 →
  bem_formado v0 →
  (∀ file b, edit_imagem form = Some file → leitura file = Some b → b ≠ "") →
  ∃ v', garagem (handleSalvarEdicaoVeiculo k display form w) !! k = Some v' ∧ bem_formado v'.
Proof.
  intros Hk Hbf Hurl.
  destruct (handleSalvarEdicaoVeiculo_veiculo k display form w v0 Hk)
    as (v' & -> & [-> | (img & -> & Himg)]);
    eexists; rewrite lookup_insert_eq; (split; [done|]); [done|].
  apply handleSalvarEdicaoVeiculo_bem_formado_aux; [by apply aplicarCampos_bem_formado|].
  destruct Himg as [->|(file & b & Hf & Hl & ->)]; [by destruct Hbf|].
  simpl. by rewrite (eqb_vazio_false _ (Hurl file b Hf Hl)).
Qed.

Lemma edicao_mantem_forma_witness :
  ∃ v', garagem (handleSalvarEdicaoVeiculo "carro1" (Some (Some "carro1")) form_edicao_fusca
                   mundo_fusca) !! "carro1"
        = Some v'
        ∧ bem_formado v'.
Proof.
  apply (edicao_mantem_forma "carro1" (Some (Some "carro1")) form_edicao_fusca mundo_fusca
           fusca eq_refl).
  - exact (proj1 fusca_bem_formado).
  - intros file b [= <-] [= <-]. discriminate.
Defined.
